(** * matgendb.vv.report: report data model, formatters and emailer

    A shallow embedding of [matgendb/vv/report.py] (Python 2) and the
    properties of its tables, report trees and formatters.

    Layout: the Python values and built-ins the module relies on, then the
    classes of the module in source order, then the theorems. *)

From Stdlib Require Import ZArith List Lia Ascii String DecimalString OrdersEx.
From stdpp Require Import base list strings sorting gmap.

Local Open Scope string_scope.
Local Open Scope nat_scope.
Local Open Scope list_scope.

(** ** Python values and exceptions *)

(** The scalar values that appear as table cells and header values:
    None, bool, int and byte strings, whose [str()] always returns.
    (Cells of other kinds, unicode strings among them, are the cells of
    [Cells] below.) *)
Inductive value : Type :=
  | VNone
  | VBool (b : bool)
  | VInt (n : Z)
  | VStr (s : string).

(** What a ValueError of this module reports. *)
Inductive value_error : Type :=
  | ExpectedValues (width got : nat)   (* 'expected {:d} values, got {:d}' *)
  | ColumnNotIn (name : string) (colnames : list string)
                                       (* 'column {} not in {}' *)
  | IndexOutOfRange (last : Z)         (* 'index out of range 0..{:d}' *)
  | Unpack (got : nat).                (* a tuple assignment of the wrong size *)

(** The exceptions this module raises or lets through. *)
Inductive exn : Type :=
  | ValueError (why : value_error)
  | IndexError
  | TypeError
  | AttributeError
  | RuntimeError                       (* maximum recursion depth exceeded *)
  | UnicodeEncodeError                 (* 'ascii' codec can't encode *)
  | UnicodeDecodeError.                (* 'utf8' codec can't decode *)

Inductive result (A : Type) : Type :=
  | Ok (a : A)
  | Raise (e : exn).
Arguments Ok {A} a.
Arguments Raise {A} e.

Module Py.

(** [str(n)] for an int: decimal digits, with a leading minus sign. *)
Definition str_of_Z (n : Z) : string := NilZero.string_of_int (Z.to_int n).

(** [sys.maxint] of a 64-bit build.  An integer is an [int] object within
    [-maxint - 1 .. maxint]; beyond, arithmetic and literals give a [long],
    which is not an instance of [int]. *)
Definition maxint : Z := 9223372036854775807.

Definition is_int (n : Z) : bool := (- maxint - 1 <=? n)%Z && (n <=? maxint)%Z.

(** [str(v)]; [format(v, '')] and ['{}'.format(v)] agree with it. *)
Definition str (v : value) : string :=
  match v with
  | VNone => "None"
  | VBool true => "True"
  | VBool false => "False"
  | VInt n => str_of_Z n
  | VStr s => s
  end.

(** Truth value of [v] in a condition. *)
Definition truthy (v : value) : bool :=
  match v with
  | VNone => false
  | VBool b => b
  | VInt n => negb (n =? 0)%Z
  | VStr s => negb (String.eqb s "")
  end.

(** bool is a subclass of int: [True == 1]. *)
Definition num (v : value) : option Z :=
  match v with
  | VBool b => Some (if b then 1 else 0)%Z
  | VInt n => Some n
  | _ => None
  end.

(** [a == b]. *)
Definition eq (a b : value) : bool :=
  match a, b with
  | VNone, VNone => true
  | VStr s, VStr t => String.eqb s t
  | _, _ =>
      match num a, num b with
      | Some x, Some y => (x =? y)%Z
      | _, _ => false
      end
  end.

Definition str_ltb (s t : string) : bool :=
  match String_as_OT.compare s t with Lt => true | _ => false end.

(** [a < b] in Python 2: None is below everything, numbers compare by
    value and are below strings, strings compare bytewise. *)
Definition lt (a b : value) : bool :=
  match a, b with
  | VNone, VNone => false
  | VNone, _ => true
  | _, VNone => false
  | VStr s, VStr t => str_ltb s t
  | VStr _, _ => false
  | _, VStr _ => true
  | _, _ =>
      match num a, num b with
      | Some x, Some y => (x <? y)%Z
      | _, _ => false
      end
  end.

(** [sep.join(parts)]. *)
Fixpoint join (sep : string) (parts : list string) : string :=
  match parts with
  | [] => ""
  | [p] => p
  | p :: ps => p +:+ sep +:+ join sep ps
  end.

(** [s.split(c)] for a one-character separator: the pieces between the
    occurrences of [c], so one more piece than there are occurrences. *)
Fixpoint split (c : ascii) (s : string) : list string :=
  match s with
  | EmptyString => [""]
  | String a s' =>
      if Ascii.eqb a c then "" :: split c s'
      else match split c s' with
           | p :: ps => String a p :: ps
           | [] => [String a ""]
           end
  end.

(** [s.count(c)]. *)
Fixpoint count (c : ascii) (s : string) : nat :=
  match s with
  | EmptyString => 0
  | String a s' => (if Ascii.eqb a c then 1 else 0) + count c s'
  end.

(** [c * n] for a one-character string. *)
Fixpoint repeat_char (c : ascii) (n : nat) : string :=
  match n with
  | O => ""
  | S n' => String c (repeat_char c n')
  end.

(** ['{:Ns}'.format(s)]: left-justified in a field of [n] characters,
    never truncated. *)
Definition ljust (n : nat) (s : string) : string :=
  s +:+ repeat_char " " (n - String.length s).

(** [l[i]] with Python's negative indices; [None] stands for IndexError. *)
Definition index {A} (l : list A) (i : Z) : option nat :=
  let n := Z.of_nat (length l) in
  if (0 <=? i)%Z && (i <? n)%Z then Some (Z.to_nat i)
  else if (- n <=? i)%Z && (i <? 0)%Z then Some (Z.to_nat (n + i))
  else None.

End Py.

(** ** The Python 2 dictionary

    [Header.to_dict], [Table.values] and the keyword dictionaries of the
    JSON formatter are CPython 2.7 [dict] objects, and
    [MarkdownFormatter._mapdump] prints one in iteration order.  That order
    is the order of the slots of the hash table, so the table is modelled
    as CPython builds it (Objects/dictobject.c, Objects/stringobject.c; a
    64-bit build without hash randomisation, the default).  Keys are
    strings; nothing in this module deletes a key. *)
Module PyDict.

Local Open Scope Z_scope.

(** A C [long] / [size_t] of 64 bits, kept as its unsigned value. *)
Definition wrap64 (x : Z) : Z := x mod 2 ^ 64.

Definition byte_of (c : ascii) : Z := Z.of_nat (nat_of_ascii c).

Fixpoint hash_bytes (x : Z) (s : string) : Z :=
  match s with
  | EmptyString => x
  | String c s' => hash_bytes (Z.lxor (wrap64 (1000003 * x)) (byte_of c)) s'
  end.

(** [string_hash]: [hash(s)] as an unsigned 64-bit number. *)
Definition string_hash (s : string) : Z :=
  match s with
  | EmptyString => 0
  | String c _ =>
      let x := Z.shiftl (byte_of c) 7 in
      let x := hash_bytes x s in
      let x := Z.lxor x (Z.of_nat (String.length s)) in
      if x =? 2 ^ 64 - 1 then 2 ^ 64 - 2 else x
  end.

Section Dict.
Context {V : Type}.

(** [me_hash], [me_key], [me_value] of an active entry. *)
Definition entry : Type := Z * string * V.

(** [ma_mask] is the table size minus one; without deletions
    [ma_fill] equals [ma_used]. *)
Record dict : Type := mkDict {
  ma_used : nat;
  ma_mask : Z;
  ma_table : list (option entry)
}.

Definition PyDict_MINSIZE : Z := 8.
Definition PERTURB_SHIFT : Z := 5.

Definition new_table (size : Z) : list (option entry) :=
  replicate (Z.to_nat size) None.

(** [PyDict_New]. *)
Definition empty : dict :=
  {| ma_used := 0; ma_mask := PyDict_MINSIZE - 1;
     ma_table := new_table PyDict_MINSIZE |}.

Definition slot_free_or_key (table : list (option entry)) (slot : Z)
    (hash : Z) (key : string) : bool :=
  match table !! Z.to_nat slot with
  | Some (Some (h, k, _)) => (h =? hash) && String.eqb k key
  | _ => true
  end.

(** The probe loop of [lookdict_string]: the slot of [key], or the
    free slot where it goes. *)
Fixpoint probe (fuel : nat) (table : list (option entry)) (mask hash : Z)
    (key : string) (i perturb : Z) : Z :=
  match fuel with
  | O => Z.land i mask
  | S fuel' =>
      let i := wrap64 (Z.shiftl i 2 + i + perturb + 1) in
      if slot_free_or_key table (Z.land i mask) hash key
      then Z.land i mask
      else probe fuel' table mask hash key i (Z.shiftr perturb PERTURB_SHIFT)
  end.

Definition lookdict_string (table : list (option entry)) (mask hash : Z)
    (key : string) : Z :=
  let i := Z.land hash mask in
  if slot_free_or_key table i hash key then i
  else probe (64 + 2 * length table) table mask hash key i hash.

(** [insertdict]: overwrite the value of a present key, or fill the
    free slot. *)
Definition insertdict (d : dict) (hash : Z) (key : string) (v : V) : dict :=
  let slot := Z.to_nat (lookdict_string (ma_table d) (ma_mask d) hash key) in
  match ma_table d !! slot with
  | Some (Some (h, k, _)) =>
      {| ma_used := ma_used d; ma_mask := ma_mask d;
         ma_table := <[slot := Some (h, k, v)]> (ma_table d) |}
  | _ =>
      {| ma_used := S (ma_used d); ma_mask := ma_mask d;
         ma_table := <[slot := Some (hash, key, v)]> (ma_table d) |}
  end.

(** The size loop of [dictresize]: the first power of two above
    [minused], from 8. *)
Fixpoint grow_size (fuel : nat) (newsize minused : Z) : Z :=
  match fuel with
  | O => newsize
  | S fuel' =>
      if newsize <=? minused then grow_size fuel' (2 * newsize) minused
      else newsize
  end.

(** The active entries in slot order. *)
Definition active (table : list (option entry)) : list entry :=
  omap id table.

(** [dictresize]: a fresh table, refilled from the old one in slot
    order. *)
Definition dictresize (d : dict) (minused : Z) : dict :=
  let newsize := grow_size (Z.to_nat minused) PyDict_MINSIZE minused in
  fold_left (fun d' '(h, k, v) => insertdict d' h k v)
    (active (ma_table d))
    {| ma_used := 0; ma_mask := newsize - 1; ma_table := new_table newsize |}.

(** [PyDict_SetItem]: [d[key] = v]. *)
Definition setitem (d : dict) (key : string) (v : V) : dict :=
  let d' := insertdict d (string_hash key) key v in
  let used := Z.of_nat (ma_used d') in
  if andb (Nat.ltb (ma_used d) (ma_used d')) ((ma_mask d' + 1) * 2 <=? used * 3)
  then dictresize d' ((if 50000 <? used then 2 else 4) * used)
  else d'.

(** [{k: v for k, v in kvs}] and [dict(k1=v1, ...)]. *)
Definition of_list (kvs : list (string * V)) : dict :=
  fold_left (fun d '(k, v) => setitem d k v) kvs empty.

(** [d.items()], [d.iteritems()]: slot order. *)
Definition items (d : dict) : list (string * V) :=
  map (fun '(_, k, v) => (k, v)) (active (ma_table d)).

(** [len(d)]; a dict is true in a condition when it is not empty. *)
Definition len (d : dict) : nat := ma_used d.

End Dict.
Arguments dict V : clear implicits.
Arguments entry V : clear implicits.

End PyDict.

(** ** The report data model *)

(** [class Header]: the entries in insertion order, and a title.
    [ReportHeader] and [SectionHeader] add nothing to it. *)
Record Header : Type := mkHeader {
  _kv : list (string * value);
  title : string
}.

Module HeaderOps.

(** [Header.__init__]. *)
Definition init (title : string) : Header := {| _kv := []; title := title |}.

(** [Header.add]. *)
Definition add (key : string) (v : value) (h : Header) : Header :=
  {| _kv := _kv h ++ [(key, v)]; title := title h |}.

(** [Header.get]: the values of every entry under [key], in order. *)
Definition get (key : string) (h : Header) : list value :=
  map snd (filter (fun kv => String.eqb (fst kv) key) (_kv h)).

(** [Header.to_dict]. *)
Definition to_dict (h : Header) : PyDict.dict value := PyDict.of_list (_kv h).

End HeaderOps.

(** [class Table].  [R] is what a row is: a row object itself
    ([list value]) where only its content matters, or a reference to the
    row object where the identity of the object matters. *)
Record Table (R : Type) : Type := mkTable {
  _colnames : list string;
  _rows : list R;
  _width : nat;
  _max_col_widths : list nat
}.
Arguments mkTable {R} _ _ _ _.
Arguments _colnames {R} _.
Arguments _rows {R} _.
Arguments _width {R} _.
Arguments _max_col_widths {R} _.

(** [class ReportSection(Report)]: a header, the sub-sections and a body,
    which is [None] for a container of sub-sections. *)
#[local] Unset Elimination Schemes.
Inductive ReportSection (R : Type) : Type :=
  | mkSection (hdr : Header) (body : option (Table R))
      (sections : list (ReportSection R)).
#[local] Set Elimination Schemes.
Arguments mkSection {R} _ _ _.

(** [class Report]. *)
Record Report (R : Type) : Type := mkReport {
  _hdr : Header;
  _sections : list (ReportSection R)
}.
Arguments mkReport {R} _ _.
Arguments _hdr {R} _.
Arguments _sections {R} _.

Module SectionOps.
Definition header {R} (s : ReportSection R) : Header :=
  match s with mkSection h _ _ => h end.
Definition body {R} (s : ReportSection R) : option (Table R) :=
  match s with mkSection _ b _ => b end.
Definition sections {R} (s : ReportSection R) : list (ReportSection R) :=
  match s with mkSection _ _ ss => ss end.
End SectionOps.

(** *** Sorting

    [list.sort(key=f)] computes the key of every item first, then sorts the
    decorated items with [<] on the keys, keeping items with equal keys in
    their order.  Where [<] orders the keys there is one such arrangement,
    the one that insertion builds. *)
Section ListSort.
Context {K A : Type} (lt : K -> K -> bool).

(** [x] goes before the first item whose key is not below its own. *)
Fixpoint insert_by (x : K * A) (l : list (K * A)) : list (K * A) :=
  match l with
  | [] => [x]
  | y :: l' => if lt (fst y) (fst x) then y :: insert_by x l' else x :: y :: l'
  end.

Fixpoint sort_by (l : list (K * A)) : list (K * A) :=
  match l with
  | [] => []
  | x :: l' => insert_by x (sort_by l')
  end.
End ListSort.

(** What [sortby] is called with: a column name, an [int], or a [long]
    such as [1L] or [2**64], which is no instance of [int]. *)
Inductive name_or_index : Type :=
  | ByName (name : string)
  | ByIndex (index : Z)
  | ByLong (index : Z).

Module TableOps.

Abbreviation row := (list value).

(** [Table.__init__]. *)
Definition init {R} (colnames : list string) : Table R :=
  {| _colnames := colnames;
     _rows := [];
     _width := length colnames;
     _max_col_widths := map String.length colnames |}.

Definition column_names {R} (t : Table R) : list string := _colnames t.
Definition column_widths {R} (t : Table R) : list nat := _max_col_widths t.
Definition ncol {R} (t : Table R) : nat := _width t.
Definition nrow {R} (t : Table R) : nat := length (_rows t).

(** The loop of [add] over [enumerate(values)], from index [i] on.
    [widths[i]] raises IndexError past the end of [widths]. *)
Fixpoint update_widths (i : nat) (values : row) (widths : list nat)
    : list nat * result unit :=
  match values with
  | [] => (widths, Ok tt)
  | v :: values' =>
      let n := String.length (Py.str v) in
      match widths !! i with
      | None => (widths, Raise IndexError)
      | Some w =>
          let widths' := if w <? n then <[i := n]> widths else widths in
          update_widths (S i) values' widths'
      end
  end.

(** [Table.add]: the table afterwards, and how the call ended. *)
Definition add (values : row) (t : Table row) : Table row * result unit :=
  if negb (length values =? _width t)
  then (t, Raise (ValueError (ExpectedValues (_width t) (length values))))
  else
    let rows := _rows t ++ [values] in
    let '(widths, r) := update_widths 0 values (_max_col_widths t) in
    ({| _colnames := _colnames t; _rows := rows; _width := _width t;
        _max_col_widths := widths |}, r).

(** A sequence of [add] calls, stopping at the first that raises. *)
Fixpoint add_all (rows : list row) (t : Table row) : Table row * result unit :=
  match rows with
  | [] => (t, Ok tt)
  | r :: rows' =>
      match add r t with
      | (t', Ok _) => add_all rows' t'
      | (t', Raise e) => (t', Raise e)
      end
  end.

(** [colnames.index(name)]. *)
Fixpoint list_index (name : string) (colnames : list string) : option nat :=
  match colnames with
  | [] => None
  | c :: cs => if String.eqb c name then Some 0 else S <$> list_index name cs
  end.

(** The column that [sortby] settles on, or its ValueError.  Only an
    instance of [int] is taken as an index; anything else goes to
    [colnames.index] as a name, where a long equals no column name and is
    reported by its digits.  An index within [0, width) is below the length
    of a list and therefore an [int]; whatever is outside is an [int] or a
    [long] by its size. *)
Definition sort_column (by_ : name_or_index) (t : Table row) : result nat :=
  match by_ with
  | ByName name =>
      match list_index name (_colnames t) with
      | Some colnum => Ok colnum
      | None => Raise (ValueError (ColumnNotIn name (_colnames t)))
      end
  | ByIndex index =>
      if (index <? 0)%Z || (Z.of_nat (_width t) <=? index)%Z
      then
        if Py.is_int index
        then Raise (ValueError (IndexOutOfRange (Z.of_nat (_width t) - 1)))
        else Raise (ValueError (ColumnNotIn (Py.str_of_Z index) (_colnames t)))
      else Ok (Z.to_nat index)
  | ByLong index =>
      Raise (ValueError (ColumnNotIn (Py.str_of_Z index) (_colnames t)))
  end.

(** [itemgetter(colnum)] over the rows: every key, or nothing when a row
    is too short (IndexError). *)
Definition sort_keys (colnum : nat) (rows : list row) : option (list value) :=
  mapM (fun r : row => r !! colnum) rows.

(** [Table.sortby].  When a key cannot be taken the rows stay as they
    were. *)
Definition sortby (by_ : name_or_index) (t : Table row)
    : Table row * result unit :=
  match sort_column by_ t with
  | Raise e => (t, Raise e)
  | Ok colnum =>
      match sort_keys colnum (_rows t) with
      | None => (t, Raise IndexError)
      | Some keys =>
          ({| _colnames := _colnames t;
              _rows := map snd (sort_by Py.lt (zip keys (_rows t)));
              _width := _width t;
              _max_col_widths := _max_col_widths t |}, Ok tt)
      end
  end.

(** One row of [Table.values]: [{colnames[i]: r[i] for i in range(width)}].
    Either subscript raises IndexError when out of range. *)
Definition row_dict (t : Table row) (r : row) : result (PyDict.dict value) :=
  match mapM (fun i => c ← _colnames t !! i; v ← r !! i; Some (c, v))
             (seq 0 (_width t)) with
  | Some kvs => Ok (PyDict.of_list kvs)
  | None => Raise IndexError
  end.

(** [Table.values]. *)
Fixpoint values_of (t : Table row) (rows : list row)
    : result (list (PyDict.dict value)) :=
  match rows with
  | [] => Ok []
  | r :: rows' =>
      match row_dict t r with
      | Raise e => Raise e
      | Ok d =>
          match values_of t rows' with
          | Raise e => Raise e
          | Ok ds => Ok (d :: ds)
          end
      end
  end.

Definition values (t : Table row) : result (list (PyDict.dict value)) :=
  values_of t (_rows t).

End TableOps.

(** *** Table.add over any cells

    [Table.add] takes a row of any objects and asks one thing of each:
    [len(str(v))].  On the scalars of [value] that call returns; on other
    objects it can raise, as [str] does on a unicode string with a
    character outside ASCII.  The exception leaves [add] from inside the
    loop, after the row has been appended. *)
Module Cells.

(** A cell: a scalar, or a unicode string given by its code points. *)
Inductive pycell : Type :=
  | CValue (v : value)
  | CUnicode (codepoints : list N).

(** [u.encode('ascii')], which is what [str(u)] does. *)
Definition encode_ascii (codepoints : list N) : result string :=
  if forallb (fun c => (c <? 128)%N) codepoints
  then Ok (string_of_list_ascii (map ascii_of_N codepoints))
  else Raise UnicodeEncodeError.

(** [str(c)]. *)
Definition str (c : pycell) : result string :=
  match c with
  | CValue v => Ok (Py.str v)
  | CUnicode codepoints => encode_ascii codepoints
  end.

Section AnyCell.
Context {C : Type} (str_ : C -> result string).

(** [str(v)] returns. *)
Definition printable (v : C) : Prop := exists s, str_ v = Ok s.

(** The loop of [add] over [enumerate(values)], from index [i] on:
    [str(v)] comes first and may raise, then [widths[i]]. *)
Fixpoint update_widths (i : nat) (values : list C) (widths : list nat)
    : list nat * result unit :=
  match values with
  | [] => (widths, Ok tt)
  | v :: values' =>
      match str_ v with
      | Raise e => (widths, Raise e)
      | Ok s =>
          let n := String.length s in
          match widths !! i with
          | None => (widths, Raise IndexError)
          | Some w =>
              let widths' := if w <? n then <[i := n]> widths else widths in
              update_widths (S i) values' widths'
          end
      end
  end.

(** [Table.add]: the table afterwards, and how the call ended. *)
Definition add (values : list C) (t : Table (list C))
    : Table (list C) * result unit :=
  if negb (length values =? _width t)
  then (t, Raise (ValueError (ExpectedValues (_width t) (length values))))
  else
    let rows := _rows t ++ [values] in
    let '(widths, r) := update_widths 0 values (_max_col_widths t) in
    ({| _colnames := _colnames t; _rows := rows; _width := _width t;
        _max_col_widths := widths |}, r).

(** A sequence of [add] calls, stopping at the first that raises. *)
Fixpoint add_all (rows : list (list C)) (t : Table (list C))
    : Table (list C) * result unit :=
  match rows with
  | [] => (t, Ok tt)
  | r :: rows' =>
      match add r t with
      | (t', Ok _) => add_all rows' t'
      | (t', Raise e) => (t', Raise e)
      end
  end.

End AnyCell.

End Cells.

Module ReportOps.

(** [Report.__init__] and [ReportSection.__init__]. *)
Definition init {R} (header : Header) : Report R :=
  {| _hdr := header; _sections := [] |}.

Definition section_init {R} (header : Header) (body : option (Table R))
    : ReportSection R :=
  mkSection header body [].

(** [Report.add_section], on a report and on a section. *)
Definition add_section {R} (s : ReportSection R) (r : Report R) : Report R :=
  {| _hdr := _hdr r; _sections := _sections r ++ [s] |}.

Definition section_add_section {R} (s : ReportSection R)
    (p : ReportSection R) : ReportSection R :=
  match p with mkSection h b ss => mkSection h b (ss ++ [s]) end.

(** [Report._count_rows]: [total_rows] is [self._total_rows], threaded
    through the calls. *)
Fixpoint _count_rows {R} (sect : ReportSection R) (total_rows : nat) : nat :=
  match sect with
  | mkSection _ body sections =>
      let total_rows :=
        match body with
        | Some t => total_rows + TableOps.nrow t
        | None => total_rows
        end in
      fold_left (fun total subsect => _count_rows subsect total)
        sections total_rows
  end.

(** [Report.is_empty]. *)
Definition is_empty {R} (r : Report R) : bool :=
  if length (_sections r) =? 0 then true
  else
    let total_rows :=
      fold_left (fun total sect => _count_rows sect total) (_sections r) 0 in
    total_rows =? 0.

End ReportOps.

(** ** Row objects

    A table keeps references to the row objects it was given, and
    [HTMLFormatter.format] assigns into a row object.  The row objects
    live in a store, indexed by address; a new object goes at the end. *)
Abbreviation loc := nat.
Abbreviation store := (list (list value)).

Module St.

(** A computation on the store that returns or raises. *)
Definition St (A : Type) : Type := store -> store * result A.

#[export] Instance St_ret : MRet St := fun A a σ => (σ, Ok a).

#[export] Instance St_bind : MBind St := fun A B f m σ =>
  match m σ with
  | (σ', Ok a) => f a σ'
  | (σ', Raise e) => (σ', Raise e)
  end.

Definition raise {A} (e : exn) : St A := fun σ => (σ, Raise e).

(** A new list object with the items [l]. *)
Definition alloc (l : list value) : St loc :=
  fun σ => (σ ++ [l], Ok (length σ)).

(** The items of the object at [r].  Every reference of a running
    program is in the store; outside it the read raises. *)
Definition read (r : loc) : St (list value) :=
  fun σ => match σ !! r with
           | Some l => (σ, Ok l)
           | None => (σ, Raise TypeError)
           end.

(** [list(r)]: a new object with the items of [r]. *)
Definition list_copy (r : loc) : St loc :=
  l ← read r; alloc l.

(** [r[i]]. *)
Definition getitem (r : loc) (i : Z) : St value :=
  l ← read r;
  match Py.index l i with
  | Some n => match l !! n with
              | Some v => mret v
              | None => raise IndexError
              end
  | None => raise IndexError
  end.

(** The object at [r] gets the items [l], in place. *)
Definition write (r : loc) (l : list value) : St unit :=
  fun σ => (<[r := l]> σ, Ok tt).

(** [r[i] = v]. *)
Definition setitem (r : loc) (i : Z) (v : value) : St unit :=
  l ← read r;
  match Py.index l i with
  | Some n => write r (<[n := v]> l)
  | None => raise IndexError
  end.

(** A [for] loop that carries [b] from one item to the next. *)
Fixpoint foldM {A B} (f : B -> A -> St B) (l : list A) (b : B) : St B :=
  match l with
  | [] => mret b
  | a :: l' => b' ← f b a; foldM f l' b'
  end.

End St.
Import St.

(** ** HTMLFormatter *)

Module HTML.

(** [HTMLFormatter.__init__]: the line separator, the identifier column
    and the style sheet ([None] or empty for none). *)
Record HTMLFormatter : Type := mkHTMLFormatter {
  _sep : string;
  _idcol : Z;
  _css : option string
}.

Definition dquote : string := String (ascii_of_nat 34) "".

Definition tag (name : string) (content : string) : string :=
  "<" +:+ name +:+ ">" +:+ content +:+ "</" +:+ name +:+ ">".

(** The [<dt>]/[<dd>] lines of a header. *)
Definition meta_lines (h : Header) : list string :=
  flat_map (fun '(key, v) => [tag "dt" key; tag "dd" (Py.str v)]) (_kv h).

Definition dl_open (class : string) : string :=
  "<dl class=" +:+ dquote +:+ class +:+ dquote +:+ ">".

(** [('even', 'odd')[i % 2]]. *)
Definition rclass (i : nat) : string :=
  if i mod 2 =? 0 then "even" else "odd".

Definition tr_open (i : nat) : string :=
  "<tr class=" +:+ dquote +:+ rclass i +:+ dquote +:+ ">".

(** What the row loop carries: [prev_key], [i] and the lines so far. *)
Definition loop_state : Type := value * nat * list string.

(** The body of [for row in cond_section.body], for the row object at
    [r]. *)
Definition row_body (idcol : Z) (st : loop_state) (r : loc) : St loop_state :=
  let '(prev_key, i, text) := st in
  row ← list_copy r;
  key ← getitem row idcol;
  '(prev_key, i) ←
    (if Py.truthy prev_key && Py.eq key prev_key
     then _ ← setitem row idcol (VStr ""); mret (prev_key, i)
     else mret (key, S i));
  let text := text ++ [tr_open i] in
  cells ← read row;
  let text := text ++ map (fun v => tag "td" (Py.str v)) cells in
  mret (prev_key, i, text ++ ["</tr>"]).

(** The [<table>] of one condition section. *)
Definition table_lines (idcol : Z) (body : option (Table loc))
    : St (list string) :=
  match body with
  | None => raise AttributeError
  | Some t =>
      let text :=
        ["<table>"; "<tr>"] ++
        map (tag "th") (TableOps.column_names t) ++ ["</tr>"] in
      '(_, _, text) ← foldM (row_body idcol) (_rows t) (VNone, 0, text);
      mret (text ++ ["</table>"])
  end.

Definition cond_lines (idcol : Z) (text : list string)
    (cond_section : ReportSection loc) : St (list string) :=
  let h := SectionOps.header cond_section in
  let text :=
    text ++ [tag "h3" (title h); dl_open "subsectmeta"] ++ meta_lines h ++
    ["</dl>"] in
  table ← table_lines idcol (SectionOps.body cond_section);
  mret (text ++ table).

Definition section_lines (idcol : Z) (text : list string)
    (section : ReportSection loc) : St (list string) :=
  let h := SectionOps.header section in
  let text :=
    text ++ [tag "h2" (title h); dl_open "sectmeta"] ++ meta_lines h ++
    ["</dl>"] in
  foldM (cond_lines idcol) (SectionOps.sections section) text.

Definition style_lines (css : option string) : list string :=
  match css with
  | Some c => if String.eqb c "" then [] else ["<style>"; c; "</style>"]
  | None => []
  end.

(** [HTMLFormatter.format]. *)
Definition format (f : HTMLFormatter) (report : Report loc) : St string :=
  let h := _hdr report in
  let text :=
    ["<!DOCTYPE html>"; "<html>"; tag "title" (title h); "<head>"] ++
    style_lines (_css f) ++
    ["</head>"; "<body>"; tag "h1" (title h); dl_open "rptmeta"] ++
    meta_lines h ++ ["</dl>"] in
  text ← foldM (section_lines (_idcol f)) (_sections report) text;
  mret (Py.join (_sep f) (text ++ ["</body>"; "</html>"])).

End HTML.

(** ** JSONFormatter *)

(** The objects handed to [json.dumps]: values, lists and dicts, which the
    encoder knows, and [Header] and [Table] instances, which it does not.
    A dict is given by its items in iteration order. *)
#[local] Unset Elimination Schemes.
Inductive pyobj : Type :=
  | OVal (v : value)
  | OList (l : list pyobj)
  | ODict (items : list (string * pyobj))
  | OHeader (h : Header)
  | OTable (t : Table (list value)).

(** A JSON document. *)
Inductive json : Type :=
  | JNull
  | JBool (b : bool)
  | JNum (n : Z)
  | JStr (s : string)
  | JArr (l : list json)
  | JObj (members : list (string * json)).
#[local] Set Elimination Schemes.

Module JSON.

(** [JSONFormatter.__init__]. *)
Record JSONFormatter : Type := mkJSONFormatter {
  _idcol : Z;
  _indent : nat
}.

(** [dict(k1=v1, ...)] and [{k: v ...}] as an object for the encoder.
    The keys of the keyword dictionaries below fall into different slots,
    so the order in which the interpreter stores them does not show. *)
Definition dict_ (kvs : list (string * pyobj)) : pyobj :=
  ODict (PyDict.items (PyDict.of_list kvs)).

(** A continuation byte of UTF-8: [10xxxxxx]. *)
Definition continuation (b : ascii) : bool :=
  (128 <=? nat_of_ascii b) && (nat_of_ascii b <? 192).

(** [s.decode('utf-8')] returns: the bytes are ASCII characters and
    well-formed sequences of two, three or four bytes.  The decoder of
    Python 2.7 refuses the lead bytes C0, C1 and F5 to FF, the overlong
    forms after E0 and F0 and what lies beyond U+10FFFF after F4; it lets
    the surrogates through. *)
Fixpoint utf8 (s : string) : bool :=
  match s with
  | EmptyString => true
  | String b0 s1 =>
      let n0 := nat_of_ascii b0 in
      if n0 <? 128 then utf8 s1
      else if (194 <=? n0) && (n0 <? 224) then
        match s1 with
        | String b1 s2 => continuation b1 && utf8 s2
        | _ => false
        end
      else if (224 <=? n0) && (n0 <? 240) then
        match s1 with
        | String b1 (String b2 s3) =>
            continuation b1 && continuation b2 &&
            negb ((n0 =? 224) && (nat_of_ascii b1 <? 160)) && utf8 s3
        | _ => false
        end
      else if (240 <=? n0) && (n0 <? 245) then
        match s1 with
        | String b1 (String b2 (String b3 s4)) =>
            continuation b1 && continuation b2 && continuation b3 &&
            negb ((n0 =? 240) && (nat_of_ascii b1 <? 144)) &&
            negb ((n0 =? 244) && (143 <? nat_of_ascii b1)) && utf8 s4
        | _ => false
        end
      else false
  end.

(** The encoder on a scalar.  A byte string is decoded as UTF-8 to give
    the text of the JSON string, which raises UnicodeDecodeError on other
    bytes; [JStr s] is the string whose text is [s] in UTF-8. *)
Definition of_value (v : value) : result json :=
  match v with
  | VNone => Ok JNull
  | VBool b => Ok (JBool b)
  | VInt n => Ok (JNum n)
  | VStr s => if utf8 s then Ok (JStr s) else Raise UnicodeDecodeError
  end.

(** The interpreter's recursion limit. *)
Definition recursion_limit : nat := 1000.

Section Encoder.
(** The [default] method of the encoder class given as [cls]: the
    replacement for an object the encoder does not know, or an
    exception. *)
Variable default : pyobj -> result pyobj.

(** [json.JSONEncoder] at work: values, lists and dicts are encoded as
    they are, the key of an item before its value, and anything else goes
    through [default] and the replacement is encoded in its place.  The
    result is the document that the returned text spells out. *)
Fixpoint encode (depth : nat) : pyobj -> result json :=
  fix enc (o : pyobj) : result json :=
    match o with
    | OVal v => of_value v
    | OList l =>
        (fix enc_list (l : list pyobj) (acc : list json) : result json :=
           match l with
           | [] => Ok (JArr (rev acc))
           | x :: l' =>
               match enc x with
               | Ok j => enc_list l' (j :: acc)
               | Raise e => Raise e
               end
           end) l []
    | ODict items =>
        (fix enc_items (l : list (string * pyobj))
             (acc : list (string * json)) : result json :=
           match l with
           | [] => Ok (JObj (rev acc))
           | (k, x) :: l' =>
               if utf8 k
               then match enc x with
                    | Ok j => enc_items l' ((k, j) :: acc)
                    | Raise e => Raise e
                    end
               else Raise UnicodeDecodeError
           end) items []
    | OHeader _ | OTable _ =>
        match default o with
        | Raise e => Raise e
        | Ok o' =>
            match depth with
            | O => Raise RuntimeError
            | S depth' => encode depth' o'
            end
        end
    end.

(** [json.dumps(obj, indent=..., cls=...)]. *)
Definition dumps (obj : pyobj) : result json := encode recursion_limit obj.

End Encoder.

(** The object that [JSONFormatter.format] builds. *)
Definition report_obj (report : Report (list value)) : pyobj :=
  dict_ [
    ("title", OVal (VStr (title (_hdr report))));
    ("info", OHeader (_hdr report));
    ("sections",
      OList (map (fun s =>
        dict_ [
          ("title", OVal (VStr (title (SectionOps.header s))));
          ("info", OHeader (SectionOps.header s));
          ("conditions",
            OList (map (fun cs =>
              dict_ [
                ("title", OVal (VStr (title (SectionOps.header cs))));
                ("info", OHeader (SectionOps.header cs));
                ("violations",
                  match SectionOps.body cs with
                  | Some t => OTable t
                  | None => OVal VNone
                  end)])
              (SectionOps.sections s)))])
        (_sections report)))].

(** [json.JSONEncoder.default]: no replacement for anything. *)
Definition JSONEncoder_default (o : pyobj) : result pyobj := Raise TypeError.

(** Modelled from the spec: [MongoJSONEncoder.default], of
    [matgendb/util.py], which is not among the sources.  The spec has it
    convert the scalar types of the database and fall back to an error for
    any other object; no object of this model is such a scalar. *)
Definition MongoJSONEncoder_default (o : pyobj) : result pyobj :=
  JSONEncoder_default o.

(** [Header.to_dict()] and [Table.values] as objects for the encoder. *)
Definition of_dict (d : PyDict.dict value) : pyobj :=
  ODict (map (fun '(k, v) => (k, OVal v)) (PyDict.items d)).

(** [ReportJSONEncoder.default], over the [default] of its base class
    [MongoJSONEncoder]. *)
Definition ReportJSONEncoder_default (mongo_default : pyobj -> result pyobj)
    (o : pyobj) : result pyobj :=
  match o with
  | OHeader h => Ok (of_dict (HeaderOps.to_dict h))
  | OTable t =>
      match TableOps.values t with
      | Ok ds => Ok (OList (map of_dict ds))
      | Raise e => Raise e
      end
  | _ => mongo_default o
  end.

(** [JSONFormatter.format]: the encoder class is [MongoJSONEncoder],
    which lives in [matgendb/util.py]; its [default] method is the
    parameter [mongo_default].  [_indent] only lays out the text of the
    document. *)
Definition format (mongo_default : pyobj -> result pyobj)
    (f : JSONFormatter) (report : Report (list value)) : result json :=
  dumps mongo_default (report_obj report).

(** Reading a parsed document: [j[key]] and [j[i]]. *)
Definition member (key : string) (j : json) : option json :=
  match j with
  | JObj ms => snd <$> find (fun m => String.eqb (fst m) key) ms
  | _ => None
  end.

Definition item (i : nat) (j : json) : option json :=
  match j with
  | JArr l => l !! i
  | _ => None
  end.

Definition len (j : json) : option nat :=
  match j with
  | JArr l => Some (length l)
  | _ => None
  end.

(** [j[p1][p2]...] for keys and indices [p1], [p2], ... *)
Fixpoint get (path : list (string + nat)) (j : json) : option json :=
  match path with
  | [] => Some j
  | inl key :: path' =>
      match member key j with Some j' => get path' j' | None => None end
  | inr i :: path' =>
      match item i j with Some j' => get path' j' | None => None end
  end.

End JSON.

(** ** MarkdownFormatter *)
Module Markdown.

Definition nl : string := String (ascii_of_nat 10) "".

(** [_mapdump]. *)
Definition _mapdump (d : PyDict.dict value) : string :=
  Py.join ", " (map (fun '(k, v) => k +:+ "=" +:+ Py.str v) (PyDict.items d)).

(** [_fixed_width]: every value left-justified in its width plus one;
    [zip] stops at the shorter list. *)
Definition _fixed_width (values : list value) (widths : list nat) : string :=
  Py.join "" (map (fun '(w, v) => Py.ljust (w + 1) (Py.str v))
                  (zip widths values)).

(** [_append_info_section].  A [Header] instance is always true in a
    condition, so only the emptiness of its dict decides. *)
Definition _append_info_section (lines : list string) (info : Header)
    : list string :=
  let infodict := HeaderOps.to_dict info in
  if 0 <? PyDict.len infodict
  then lines ++ ["Info: " +:+ _mapdump infodict]
  else lines.

(** [_append_heading]. *)
Definition _append_heading (lines : list string) (level : nat)
    (title : string) : list string :=
  let hashes := Py.repeat_char "#" level in
  lines ++ [nl +:+ hashes +:+ " " +:+ title +:+ " " +:+ hashes +:+ nl].

(** [_append_violations]; [data] is [None] for a section without body. *)
Definition _append_violations (lines : list string)
    (data : option (Table (list value))) : result (list string) :=
  match data with
  | None => Raise AttributeError
  | Some t =>
      let indent := "    " in
      let widths := TableOps.column_widths t in
      let lines := lines ++ [nl +:+ "Violations:" +:+ nl] in
      let lines :=
        lines ++
        [indent +:+ _fixed_width (map VStr (TableOps.column_names t)) widths] in
      Ok (lines ++ map (fun row => indent +:+ _fixed_width row widths) (_rows t))
  end.

(** A [for] loop that stops at the first exception. *)
Fixpoint foldR {A B} (f : B -> A -> result B) (l : list A) (b : B) : result B :=
  match l with
  | [] => Ok b
  | a :: l' =>
      match f b a with
      | Ok b' => foldR f l' b'
      | Raise e => Raise e
      end
  end.

Definition cond_lines (lines : list string) (cond : ReportSection (list value))
    : result (list string) :=
  let lines := _append_heading lines 3 (title (SectionOps.header cond)) in
  let lines := _append_info_section lines (SectionOps.header cond) in
  _append_violations lines (SectionOps.body cond).

Definition section_lines (lines : list string)
    (section : ReportSection (list value)) : result (list string) :=
  let lines := _append_heading lines 2 (title (SectionOps.header section)) in
  let lines := _append_info_section lines (SectionOps.header section) in
  foldR cond_lines (SectionOps.sections section) lines.

(** [MarkdownFormatter.format]. *)
Definition format (report : Report (list value)) : result string :=
  let lines := _append_heading [] 1 (title (_hdr report)) in
  let lines := _append_info_section lines (_hdr report) in
  match foldR section_lines (_sections report) lines with
  | Ok lines => Ok (Py.join nl lines)
  | Raise e => Raise e
  end.

End Markdown.

(** ** Emailer *)

(** [Emailer.__init__]. *)
Record Emailer : Type := mkEmailer {
  _sender : string;
  _recipients : list string;
  _subject : string;
  _server : string;
  _port : option Z
}.

(** A [MIMEText] message: the subtype, the payload and the headers set on
    it. *)
Record MIMEText : Type := mkMIMEText {
  mime_subtype : string;
  mime_payload : string;
  mime_headers : list (string * string)
}.

(** The keyword arguments of [smtplib.SMTP]. *)
Definition conn_kwargs : Type := (string * option Z)%type.

(** What the mail server does with each step of the exchange: [None] when
    the step goes through, [Some err] when [smtplib] raises [err] (its
    exceptions and the socket errors all derive from [Exception]). *)
Record SMTP : Type := mkSMTP {
  on_connect : conn_kwargs -> option string;
  on_sendmail : string -> list string -> MIMEText -> option string;
  on_quit : option string
}.

(** What [send] does to the outside, in order. *)
Inductive event : Type :=
  | LogInfo (kw : conn_kwargs)
  | Connect (kw : conn_kwargs)
  | Sendmail (sender : string) (recipients : list string) (msg : MIMEText)
  | Quit
  | LogError (err : string).

Module EmailerOps.

(** The [try] block of [send] with its [except Exception] handler: the
    events, and [n_recip]. *)
Definition try_send (smtp : SMTP) (e : Emailer) (kw : conn_kwargs)
    (msg : MIMEText) : list event * nat :=
  match on_connect smtp kw with
  | Some err => ([Connect kw; LogError err], 0)
  | None =>
      let sent := Sendmail (_sender e) (_recipients e) msg in
      match on_sendmail smtp (_sender e) (_recipients e) msg with
      | Some err => ([Connect kw; sent; LogError err], 0)
      | None =>
          match on_quit smtp with
          | Some err => ([Connect kw; sent; Quit; LogError err], 0)
          | None => ([Connect kw; sent; Quit], length (_recipients e))
          end
      end
  end.

(** The message that [send] builds: [MIMEText(text, sub_fmt)], whatever
    [main_fmt] is, with the three headers. *)
Definition message (e : Emailer) (text sub_fmt : string) : MIMEText :=
  {| mime_subtype := sub_fmt;
     mime_payload := text;
     mime_headers :=
       [("Subject", _subject e); ("From", _sender e);
        ("To", Py.join ", " (_recipients e))] |}.

(** [conn_kwargs]: the host, and the port when there is one. *)
Definition connection (e : Emailer) : conn_kwargs := (_server e, _port e).

(** [Emailer.send]. *)
Definition send (smtp : SMTP) (e : Emailer) (text fmt : string)
    : list event * result nat :=
  match Py.split "/" fmt with
  | [main_fmt; sub_fmt] =>
      let msg := message e text sub_fmt in
      let kw := connection e in
      let '(events, n_recip) := try_send smtp e kw msg in
      (LogInfo kw :: events, Ok n_recip)
  | pieces => ([], Raise (ValueError (Unpack (length pieces))))
  end.

End EmailerOps.

(** * Specification vocabulary *)

Module Spec.
Import TableOps.

(** A table as the constructor and the methods leave it: as many column
    names and widths as [_width] says, and rows of that length. *)
Record Table_ok (t : Table row) : Prop := {
  ok_colnames : length (_colnames t) = _width t;
  ok_widths : length (_max_col_widths t) = _width t;
  ok_rows : Forall (fun r : row => length r = _width t) (_rows t)
}.

(** [len(str(v))]. *)
Definition cell_width (v : value) : nat := String.length (Py.str v).

(** The values of column [i], one per row that has such a column. *)
Definition column (i : nat) (rows : list row) : list value :=
  omap (fun r : row => r !! i) rows.

(** The widths after a row went in: each the larger of the old width and
    the width of the row's cell. *)
Definition widen (widths : list nat) (values : row) : list nat :=
  zip_with Nat.max widths (map cell_width values).

(** [a <= b] for keys, as [list.sort] sees it: not [b < a]. *)
Definition py_le (a b : value) : Prop := Py.lt b a = false.

(** The same on decorated items, for any [<] on the keys. *)
Definition key_le {K A} (lt : K -> K -> bool) (x y : K * A) : Prop :=
  lt (fst y) (fst x) = false.

(** [t] is the body of [s] or of a section somewhere below [s]. *)
Inductive table_in {R} (t : Table R) : ReportSection R -> Prop :=
  | table_in_body hdr sections :
      table_in t (mkSection hdr (Some t) sections)
  | table_in_sub hdr body sections sub :
      sub ∈ sections -> table_in t sub ->
      table_in t (mkSection hdr body sections).

(** [t] is a table of the report [r]. *)
Definition table_of {R} (t : Table R) (r : Report R) : Prop :=
  exists s, s ∈ _sections r /\ table_in t s.

(** A computation that leaves every object of the store as it found it:
    the store afterwards is the store before, with new objects after
    it. *)
Definition preserves_store {A} (m : St A) : Prop :=
  forall σ, σ `prefix_of` fst (m σ).

End Spec.

(** * Using the classes: further vocabulary *)

Module Usage.
Import TableOps.




(** What [sortby] is asked for names a column of the table. *)
Definition names_column (by_ : name_or_index) (t : Table row) : Prop :=
  match by_ with
  | ByName name => name ∈ _colnames t
  | ByIndex index => (0 <= index < Z.of_nat (ncol t))%Z
  | ByLong _ => False
  end.

(** The ValueError of [sortby] for [by_]: an [int] is out of range, a
    name or a [long] is not among the column names. *)
Definition sortby_error (by_ : name_or_index) (t : Table row) : exn :=
  match by_ with
  | ByName name => ValueError (ColumnNotIn name (_colnames t))
  | ByIndex index =>
      if Py.is_int index
      then ValueError (IndexOutOfRange (Z.of_nat (ncol t) - 1))
      else ValueError (ColumnNotIn (Py.str_of_Z index) (_colnames t))
  | ByLong index => ValueError (ColumnNotIn (Py.str_of_Z index) (_colnames t))
  end.

(** Neither of two keys is below the other. *)
Definition same_key (a b : value) : bool :=
  negb (Py.lt a b) && negb (Py.lt b a).

(** The row has, in column [colnum], a key that ties with [k]. *)
Definition ties_with (colnum : nat) (k : value) (r : row) : bool :=
  match r !! colnum with
  | Some v => same_key k v
  | None => false
  end.

End Usage.

(** The hash table of a dictionary is consistent: a table of
    [ma_mask + 1] slots, of which [ma_used] hold an entry. *)
Record dict_ok {V} (d : PyDict.dict V) : Prop := {
  ok_mask : (0 <= PyDict.ma_mask d)%Z;
  ok_table : length (PyDict.ma_table d) = Z.to_nat (PyDict.ma_mask d + 1);
  ok_used : PyDict.ma_used d = length (PyDict.active (PyDict.ma_table d))
}.

Module Layout.
Import TableOps.




(** Every condition section of the report, the sections one level below
    the sections of the report, has a body. *)
Definition has_bodies {R} (report : Report R) : Prop :=
  Forall (fun s => Forall (fun c => is_Some (SectionOps.body c))
                          (SectionOps.sections s))
         (_sections report).

End Layout.

Module Rendering.

(** The row objects that a formatter goes through in a condition section,
    a section and a report. *)
Definition cond_rows {R} (c : ReportSection R) : list R :=
  match SectionOps.body c with
  | Some t => _rows t
  | None => []
  end.

Definition section_rows {R} (s : ReportSection R) : list R :=
  flat_map cond_rows (SectionOps.sections s).

Definition report_rows {R} (report : Report R) : list R :=
  flat_map section_rows (_sections report).

(** The reference [r] is to a row object of [σ] that has the identifier
    column. *)
Definition row_ready (σ : store) (idcol : Z) (r : loc) : Prop :=
  exists row n, σ !! r = Some row /\ Py.index row idcol = Some n.

(** [copy] has the items of the row object at [r], but for its
    identifier, which may be the empty string. *)
Definition copy_of (σ : store) (idcol : Z) (r : loc) (copy : list value) : Prop :=
  exists row n,
    σ !! r = Some row /\ Py.index row idcol = Some n /\
    (copy = row \/ copy = <[n := VStr ""]> row).

(** The report down to its condition sections: without the bodies of the
    sections and without what is below the condition sections. *)
Definition prune_cond {R} (c : ReportSection R) : ReportSection R :=
  mkSection (SectionOps.header c) (SectionOps.body c) [].

Definition prune_section {R} (s : ReportSection R) : ReportSection R :=
  mkSection (SectionOps.header s) None (map prune_cond (SectionOps.sections s)).

Definition prune {R} (report : Report R) : Report R :=
  mkReport (_hdr report) (map prune_section (_sections report)).

End Rendering.

Module Document.
Import JSON.

(** The loops of the encoder over the items of a list and of a dict, for
    an encoding [enc] of the items. *)
Fixpoint encode_list (enc : pyobj -> result json) (l : list pyobj)
    (acc : list json) : result json :=
  match l with
  | [] => Ok (JArr (rev acc))
  | x :: l' =>
      match enc x with
      | Ok j => encode_list enc l' (j :: acc)
      | Raise e => Raise e
      end
  end.

Fixpoint encode_items (enc : pyobj -> result json) (l : list (string * pyobj))
    (acc : list (string * json)) : result json :=
  match l with
  | [] => Ok (JObj (rev acc))
  | (k, x) :: l' =>
      if utf8 k
      then match enc x with
           | Ok j => encode_items enc l' ((k, j) :: acc)
           | Raise e => Raise e
           end
      else Raise UnicodeDecodeError
  end.

(** The JSON value that stands for a scalar. *)
Definition scalar_doc (v : value) : json :=
  match v with
  | VNone => JNull
  | VBool b => JBool b
  | VInt n => JNum n
  | VStr s => JStr s
  end.

(** The document of a header: one member for every item of its dict. *)
Definition header_doc (h : Header) : json :=
  JObj (map (fun '(k, v) => (k, scalar_doc v))
            (PyDict.items (HeaderOps.to_dict h))).

(** [j] is the document of the condition section [c]: its title, its
    header, and as violations one object for every row of the body, or
    null without body. *)
Definition cond_doc (c : ReportSection (list value)) (j : json) : Prop :=
  member "title" j = Some (JStr (title (SectionOps.header c))) /\
  member "info" j = Some (header_doc (SectionOps.header c)) /\
  match SectionOps.body c with
  | Some t => exists vs, member "violations" j = Some (JArr vs) /\
                         length vs = TableOps.nrow t
  | None => member "violations" j = Some JNull
  end.

(** [j] is the document of the section [s]: its title, its header and
    the documents of its condition sections. *)
Definition section_doc (s : ReportSection (list value)) (j : json) : Prop :=
  member "title" j = Some (JStr (title (SectionOps.header s))) /\
  member "info" j = Some (header_doc (SectionOps.header s)) /\
  exists conds, member "conditions" j = Some (JArr conds) /\
                Forall2 cond_doc (SectionOps.sections s) conds.

(** [j] is the document of the report. *)
Definition report_doc (report : Report (list value)) (j : json) : Prop :=
  member "title" j = Some (JStr (title (_hdr report))) /\
  member "info" j = Some (header_doc (_hdr report)) /\
  exists secs, member "sections" j = Some (JArr secs) /\
               Forall2 section_doc (_sections report) secs.

End Document.

Module Trace.

Definition is_connect (ev : event) : bool :=
  match ev with Connect _ => true | _ => false end.

Definition is_sendmail (ev : event) : bool :=
  match ev with Sendmail _ _ _ => true | _ => false end.

End Trace.

(** ** css_minify *)
Module CSS.

Definition newline : ascii := ascii_of_nat 10.

(** [s.replace(old, new)] for one character by another. *)
Fixpoint replace_char (old new : ascii) (s : string) : string :=
  match s with
  | EmptyString => ""
  | String c s' =>
      String (if Ascii.eqb c old then new else c) (replace_char old new s')
  end.

(** [s.replace(old, new)] for [old] of the two characters [a], [b]: from
    the left, every occurrence that does not overlap the one before. *)
Fixpoint replace_pair (a b : ascii) (new : string) (s : string) : string :=
  match s with
  | EmptyString => ""
  | String x t =>
      match t with
      | EmptyString => String x ""
      | String y s' =>
          if Ascii.eqb x a && Ascii.eqb y b then new +:+ replace_pair a b new s'
          else String x (replace_pair a b new t)
      end
  end.

(** [css_minify]. *)
Definition css_minify (s : string) : string :=
  replace_pair " " " " " " (replace_char newline " " s).

End CSS.

(** ** Diff formatting

    [DiffHtmlFormatter] reads the result and its records by key and by
    their sorted keys only, never in iteration order; they are kept as
    finite maps. *)
Module Diff.

Abbreviation record := (gmap string value).

(** The exceptions of the diff formatters. *)
Inductive diff_exn : Type :=
  | NoFirstRow                         (* IndexError of [rows[0]] *)
  | KeyError (key : string).

Inductive outcome (A : Type) : Type :=
  | Returns (a : A)
  | Raises (e : diff_exn).
Arguments Returns {A} a.
Arguments Raises {A} e.

Definition is_lower (c : ascii) : bool :=
  (97 <=? nat_of_ascii c) && (nat_of_ascii c <=? 122).
Definition is_upper (c : ascii) : bool :=
  (65 <=? nat_of_ascii c) && (nat_of_ascii c <=? 90).
Definition to_upper (c : ascii) : ascii :=
  if is_lower c then ascii_of_nat (nat_of_ascii c - 32) else c.
Definition to_lower (c : ascii) : ascii :=
  if is_upper c then ascii_of_nat (nat_of_ascii c + 32) else c.

(** The loop of [s.title()], with its flag [previous_is_cased]. *)
Fixpoint title_from (previous_is_cased : bool) (s : string) : string :=
  match s with
  | EmptyString => ""
  | String c s' =>
      if is_lower c then
        String (if previous_is_cased then c else to_upper c) (title_from true s')
      else if is_upper c then
        String (if previous_is_cased then to_lower c else c) (title_from true s')
      else String c (title_from false s')
  end.

(** [s.title()]. *)
Definition title_ (s : string) : string := title_from false s.

(** [r.keys()]; the order is that of the map, and only [sorted] sees it. *)
Definition keys (r : record) : list string := (map_to_list r).*1.

(** [sorted(names)]. *)
Definition sorted (names : list string) : list string :=
  (sort_by Py.str_ltb (map (fun k => (k, tt)) names)).*1.

(** [["<td>{}</td>".format(r[c]) for c in cols]]: the first key that [r]
    lacks raises KeyError. *)
Fixpoint td_cells (cols : list string) (r : record) : outcome (list string) :=
  match cols with
  | [] => Returns []
  | c :: cols' =>
      match r !! c with
      | None => Raises (KeyError c)
      | Some v =>
          match td_cells cols' r with
          | Returns tds => Returns (HTML.tag "td" (Py.str v) :: tds)
          | Raises e => Raises e
          end
      end
  end.

(** The loop of [_table] over the rows. *)
Fixpoint tr_lines (cols : list string) (rows : list record)
    : outcome (list string) :=
  match rows with
  | [] => Returns []
  | r :: rows' =>
      match td_cells cols r with
      | Raises e => Raises e
      | Returns tds =>
          match tr_lines cols rows' with
          | Returns ls => Returns (["<tr>"] ++ tds ++ ["</tr>"] ++ ls)
          | Raises e => Raises e
          end
      end
  end.

(** [DiffHtmlFormatter._table]. *)
Definition _table (rows : list record) : outcome (list string) :=
  match rows with
  | [] => Raises NoFirstRow
  | r0 :: _ =>
      let cols := sorted (keys r0) in
      match tr_lines cols rows with
      | Returns ls =>
          Returns (["<table>"] ++ (["<tr>"] ++ map (HTML.tag "th") cols ++ ["</tr>"])
                     ++ ls ++ ["</table>"])
      | Raises e => Raises e
      end
  end.

(** The lines of [_body] for one section of the result. *)
Definition section_block (result : gmap string (list record)) (section : string)
    : outcome (list string) :=
  let head := "<div class='section'><h2>" +:+ title_ section +:+ "</h2>" in
  match result !! section with
  | None => Raises (KeyError section)
  | Some rows =>
      if length rows =? 0
      then Returns [head; "<div class='empty'>Empty</div>"; "</div>"]
      else match _table rows with
           | Returns table => Returns ([head] ++ table ++ ["</div>"])
           | Raises e => Raises e
           end
  end.

Fixpoint section_blocks (result : gmap string (list record))
    (sections : list string) : outcome (list string) :=
  match sections with
  | [] => Returns []
  | section :: sections' =>
      match section_block result section with
      | Raises e => Raises e
      | Returns block =>
          match section_blocks result sections' with
          | Returns blocks => Returns (block ++ blocks)
          | Raises e => Raises e
          end
      end
  end.

(** [DiffHtmlFormatter._body]. *)
Definition _body (result : gmap string (list record)) : outcome string :=
  match section_blocks result ["additional"; "missing"; "different"] with
  | Returns blocks =>
      Returns (Py.join "" (["<div class='content'>"] ++ blocks ++ ["</div>"]))
  | Raises e => Raises e
  end.

(** The record [r] has every key of [r0]. *)
Definition has_keys_of (r0 r : record) : Prop :=
  forall k, is_Some (r0 !! k) -> is_Some (r !! k).

(** [r] without the keys that [r0] lacks. *)
Definition restrict_to (r0 r : record) : record :=
  filter (fun kv => is_Some (r0 !! fst kv)) r.

End Diff.

Module Grouping.




(** Which rows show their identifier: the first, and every row whose
    identifier is not equal to that of the row before. *)
Fixpoint shown_after (before : value) (keys : list value) : list bool :=
  match keys with
  | [] => []
  | k :: keys' => negb (Py.eq k before) :: shown_after k keys'
  end.

Definition shown (keys : list value) : list bool :=
  match keys with
  | [] => []
  | k :: keys' => true :: shown_after k keys'
  end.



End Grouping.

(** The lines of a Markdown report, as the description of the formatter
    has them: a heading for the report, for every section and for every
    condition section, each followed by its Info line when the header has
    entries, and under a condition section the lines of its table. *)
Module Outline.

(** The heading line of the given level. *)
Definition heading (level : nat) (title : string) : string :=
  Markdown.nl +:+ Py.repeat_char "#" level +:+ " " +:+ title +:+ " " +:+
  Py.repeat_char "#" level +:+ Markdown.nl.

(** The Info line of a header: none for an empty entry list, otherwise
    the one line "Info: k1=v1, k2=v2, ..." over the items of the header's
    dictionary. *)
Definition info_lines (h : Header) : list string :=
  match _kv h with
  | [] => []
  | _ :: _ =>
      ["Info: " +:+
       Py.join ", " (map (fun '(k, v) => k +:+ "=" +:+ Py.str v)
                         (PyDict.items (HeaderOps.to_dict h)))]
  end.

(** The lines of a table: "Violations:", the column names, the rows. *)
Definition table_lines (body : option (Table (list value))) : list string :=
  match body with
  | None => []
  | Some t =>
      [Markdown.nl +:+ "Violations:" +:+ Markdown.nl;
       "    " +:+ Markdown._fixed_width (map VStr (_colnames t))
                                        (_max_col_widths t)] ++
      map (fun row => "    " +:+ Markdown._fixed_width row (_max_col_widths t))
          (_rows t)
  end.

Definition cond_block (cond : ReportSection (list value)) : list string :=
  heading 3 (title (SectionOps.header cond)) ::
  info_lines (SectionOps.header cond) ++ table_lines (SectionOps.body cond).

Definition section_block (section : ReportSection (list value))
    : list string :=
  heading 2 (title (SectionOps.header section)) ::
  info_lines (SectionOps.header section) ++
  concat (map cond_block (SectionOps.sections section)).

Definition report_lines (report : Report (list value)) : list string :=
  heading 1 (title (_hdr report)) ::
  info_lines (_hdr report) ++ concat (map section_block (_sections report)).

End Outline.

(** * Theorems *)

(** ** Table.add over any cells *)
Section CellFacts.
Import TableOps.
Context {C : Type} (str_ : C -> result string).

(** The loop of [add] keeps the number of widths, however it ends. *)
Lemma cells_update_widths_length values : forall i widths ws r,
  Cells.update_widths str_ i values widths = (ws, r) ->
  length ws = length widths.
Proof.
  induction values as [|v values IH]; intros i widths ws r; simpl.
  - intros [= <- _]. reflexivity.
  - destruct (str_ v) as [s|e]; [|intros [= <- _]; reflexivity].
    destruct (widths !! i) as [w|]; [|intros [= <- _]; reflexivity].
    intros H. apply IH in H. rewrite H.
    destruct (w <? String.length s); [apply length_insert | reflexivity].
Qed.

(** Over cells whose [str()] returns, and widths that reach as far as the
    row, the loop returns. *)
Lemma cells_update_widths_returns values : forall i widths,
  i + length values <= length widths ->
  Forall (Cells.printable str_) values ->
  exists ws, Cells.update_widths str_ i values widths = (ws, Ok tt).
Proof.
  induction values as [|v values IH]; intros i widths Hlen Hall; simpl.
  - eauto.
  - inversion Hall as [|? ? [s Hs] Hall']; subst. rewrite Hs.
    simpl in Hlen.
    destruct (lookup_lt_is_Some_2 widths i ltac:(lia)) as [w Hw]. rewrite Hw.
    apply IH; [|exact Hall'].
    destruct (w <? String.length s); [rewrite length_insert|]; lia.
Qed.

(** When the loop returns, [str()] returned on every cell. *)
Lemma cells_update_widths_printable values : forall i widths ws,
  Cells.update_widths str_ i values widths = (ws, Ok tt) ->
  Forall (Cells.printable str_) values.
Proof.
  induction values as [|v values IH]; intros i widths ws; simpl.
  - constructor.
  - destruct (str_ v) as [s|e] eqn:Hs; [|discriminate].
    destruct (widths !! i) as [w|]; [|discriminate].
    intros H. constructor; [exists s; exact Hs | eapply IH; exact H].
Qed.

(** When the loop raises over widths that reach as far as the row, the
    exception is that of [str()] on one of the cells. *)
Lemma cells_update_widths_raises values : forall i widths ws e,
  i + length values <= length widths ->
  Cells.update_widths str_ i values widths = (ws, Raise e) ->
  exists v, v ∈ values /\ str_ v = Raise e.
Proof.
  induction values as [|v values IH]; intros i widths ws e Hlen; simpl.
  - discriminate.
  - simpl in Hlen. destruct (str_ v) as [s|e'] eqn:Hs.
    + destruct (lookup_lt_is_Some_2 widths i ltac:(lia)) as [w Hw]. rewrite Hw.
      intros H. apply IH in H as (v' & Hin & Hv').
      * exists v'. split; [right; exact Hin | exact Hv'].
      * destruct (w <? String.length s); [rewrite length_insert|]; lia.
    + intros [= _ <-]. exists v. split; [left | exact Hs].
Qed.

Lemma cells_add_mismatch (t : Table (list C)) values :
  length values <> _width t ->
  Cells.add str_ values t =
    (t, Raise (ValueError (ExpectedValues (_width t) (length values)))).
Proof.
  intros Hlen. unfold Cells.add.
  apply Nat.eqb_neq in Hlen. rewrite Hlen. reflexivity.
Qed.

(** A call of [add] that gets past the length check appends the row and
    ends as the loop over the widths ends. *)
Lemma cells_add_fits (t : Table (list C)) values :
  length values = _width t ->
  exists ws r,
    Cells.update_widths str_ 0 values (_max_col_widths t) = (ws, r) /\
    Cells.add str_ values t =
      ({| _colnames := _colnames t; _rows := _rows t ++ [values];
          _width := _width t; _max_col_widths := ws |}, r).
Proof.
  intros Hlen. unfold Cells.add. rewrite Hlen, Nat.eqb_refl. simpl.
  destruct (Cells.update_widths str_ 0 values (_max_col_widths t)) as [ws r].
  eauto.
Qed.

(** However [add] ends, the table keeps its column names, its [ncol] and
    as many widths as it had. *)
Lemma cells_add_shape (t t' : Table (list C)) values r :
  Cells.add str_ values t = (t', r) ->
  _colnames t' = _colnames t /\ _width t' = _width t /\
  length (_max_col_widths t') = length (_max_col_widths t).
Proof.
  destruct (Nat.eq_dec (length values) (_width t)) as [Hlen|Hlen].
  - destruct (cells_add_fits t values Hlen) as (ws & r' & Hws & ->).
    intros [= <- <-]. simpl.
    apply cells_update_widths_length in Hws. auto.
  - rewrite cells_add_mismatch by exact Hlen. intros [= <- _]. auto.
Qed.

(** A call of [add] that returns was given a row of [ncol] cells on each
    of which [str()] returned, and appended it. *)
Lemma cells_add_returns (t t' : Table (list C)) values :
  Cells.add str_ values t = (t', Ok tt) ->
  length values = _width t /\ Forall (Cells.printable str_) values /\
  _rows t' = _rows t ++ [values].
Proof.
  destruct (Nat.eq_dec (length values) (_width t)) as [Hlen|Hlen].
  - destruct (cells_add_fits t values Hlen) as (ws & r' & Hws & ->).
    intros [= <- ->]. simpl.
    split; [exact Hlen|]. split; [|reflexivity].
    eapply cells_update_widths_printable. exact Hws.
  - rewrite cells_add_mismatch by exact Hlen. discriminate.
Qed.

(** A run of [add] calls that returns. *)
Lemma cells_add_all_returns rows : forall (t t' : Table (list C)),
  Cells.add_all str_ rows t = (t', Ok tt) ->
  Forall (fun r => length r = _width t /\ Forall (Cells.printable str_) r) rows
  /\ _rows t' = _rows t ++ rows.
Proof.
  induction rows as [|r rows IH]; intros t t'; simpl.
  - intros [= <-]. rewrite app_nil_r. auto.
  - destruct (Cells.add str_ r t) as [t1 [[]|e]] eqn:Hadd; [|discriminate].
    intros Hall.
    destruct (cells_add_shape _ _ _ _ Hadd) as (_ & Hw & _).
    destruct (cells_add_returns _ _ _ Hadd) as (Hlen & Hpr & Hr).
    destruct (IH _ _ Hall) as (Hrows & Hr').
    split.
    + constructor; [auto|].
      eapply Forall_impl; [exact Hrows|]. simpl.
      intros r' [H1 H2]. split; [congruence | exact H2].
    + rewrite Hr', Hr, <- app_assoc. reflexivity.
Qed.

(** Rows of the right length, of cells on which [str()] returns, are all
    taken. *)
Lemma cells_add_all_fits rows : forall t : Table (list C),
  length (_max_col_widths t) = _width t ->
  Forall (fun r => length r = _width t /\ Forall (Cells.printable str_) r) rows ->
  exists t', Cells.add_all str_ rows t = (t', Ok tt).
Proof.
  induction rows as [|r rows IH]; intros t Hw Hrows; simpl; [eauto|].
  inversion Hrows as [|? ? [Hr Hpr] Hrows']; subst.
  destruct (cells_add_fits t r Hr) as (ws & res & Hws & Hadd).
  destruct (cells_update_widths_returns r 0 (_max_col_widths t)
              ltac:(simpl; lia) Hpr) as [ws' Hws'].
  rewrite Hws' in Hws. injection Hws as <- <-.
  rewrite Hadd. apply IH; simpl.
  - apply cells_update_widths_length in Hws'. lia.
  - exact Hrows'.
Qed.

End CellFacts.

Section CellClaims.
Import TableOps.

(** Over the scalars, whose [str()] returns, [add] is the [add] of
    [TableOps]. *)
Lemma cells_update_widths_scalars values : forall i widths,
  Cells.update_widths (fun v => Ok (Py.str v)) i values widths
    = update_widths i values widths.
Proof.
  induction values as [|v values IH]; intros i widths; simpl; [reflexivity|].
  destruct (widths !! i); [apply IH | reflexivity].
Qed.

Lemma cells_add_scalars (t : Table row) values :
  Cells.add (fun v => Ok (Py.str v)) values t = add values t.
Proof.
  unfold Cells.add, add. rewrite cells_update_widths_scalars. reflexivity.
Qed.

(** C3. [Table.add] raises its "expected n values" ValueError for a row
    whose length is not [ncol], leaving the table as it was.  For a row
    of length [ncol] on whose every value [str()] returns, it returns with
    one row more in the table.  When [str()] raises on a value of such a
    row, as it does on a unicode string with a character outside ASCII,
    [add] raises that exception, and the row is in the table all the
    same.  (The table has as many widths as columns: the constructor
    makes it so and [add] keeps it so, [cells_add_shape].) *)
Theorem add_checks_row_length {C : Type} (str_ : C -> result string)
    (t : Table (list C)) (values : list C) :
  length (column_widths t) = ncol t ->
  (length values <> ncol t ->
     Cells.add str_ values t =
       (t, Raise (ValueError (ExpectedValues (ncol t) (length values))))) /\
  (length values = ncol t -> Forall (Cells.printable str_) values ->
     exists t', Cells.add str_ values t = (t', Ok tt) /\ nrow t' = S (nrow t)) /\
  (length values = ncol t ->
     forall t' e, Cells.add str_ values t = (t', Raise e) ->
       nrow t' = S (nrow t) /\ exists v, v ∈ values /\ str_ v = Raise e).
Proof.
  unfold column_widths, ncol. intros Hw. split; [|split].
  - apply cells_add_mismatch.
  - intros Hlen Hpr.
    destruct (cells_add_fits str_ t values Hlen) as (ws & r & Hws & Hadd).
    destruct (cells_update_widths_returns str_ values 0 (_max_col_widths t)
                ltac:(simpl; lia) Hpr) as [ws' Hws'].
    rewrite Hws' in Hws. injection Hws as <- <-.
    eexists. split; [exact Hadd|].
    unfold nrow. simpl. rewrite length_app. simpl. lia.
  - intros Hlen t' e.
    destruct (cells_add_fits str_ t values Hlen) as (ws & r & Hws & ->).
    intros [= <- ->]. split.
    + unfold nrow. simpl. rewrite length_app. simpl. lia.
    + eapply cells_update_widths_raises; [|exact Hws]. simpl. lia.
Qed.

Lemma add_checks_row_length_witness :
  let t := init (R := list Cells.pycell) ["id"; "value"] in
  Cells.add Cells.str [Cells.CValue (VInt 1)] t
    = (t, Raise (ValueError (ExpectedValues 2 1))) /\
  exists t',
    Cells.add Cells.str [Cells.CValue (VInt 1); Cells.CUnicode [120%N]] t
      = (t', Ok tt) /\ nrow t' = 1.
Proof.
  intros t.
  assert (Hw : length (column_widths t) = ncol t) by reflexivity.
  destruct (add_checks_row_length Cells.str t [Cells.CValue (VInt 1)] Hw)
    as [H1 _].
  destruct (add_checks_row_length Cells.str t
              [Cells.CValue (VInt 1); Cells.CUnicode [120%N]] Hw)
    as (_ & H2 & _).
  split; [apply H1; simpl; lia | apply H2; [reflexivity|]].
  repeat constructor; eexists; reflexivity.
Defined.

(** A row of the right length that [add] does not take: one unicode cell
    with the character U+00E9.  [str()] raises on it, after the row has
    been appended. *)
Lemma add_raises_on_unicode_cell :
  let t := init (R := list Cells.pycell) ["name"] in
  let values := [Cells.CUnicode [233%N]] in
  length values = ncol t /\
  (forall t', Cells.add Cells.str values t <> (t', Ok tt)) /\
  exists t',
    Cells.add Cells.str values t = (t', Raise UnicodeEncodeError) /\
    nrow t' = 1.
Proof.
  intros t values. split; [reflexivity|]. split.
  - intros t'. discriminate.
  - eexists. split; reflexivity.
Qed.

End CellClaims.

(** ** Table *)
Section TableFacts.
Import TableOps Spec.

Lemma init_ok colnames : Table_ok (init colnames).
Proof.
  split; simpl; [reflexivity | apply length_map | constructor].
Qed.

(** The loop of [add] over a row that fits replaces the widths under the
    row by the larger of the two, and never raises. *)
Lemma update_widths_spec values : forall pre ws,
  length values <= length ws ->
  update_widths (length pre) values (pre ++ ws) =
    (pre ++ widen (take (length values) ws) values ++ drop (length values) ws,
     Ok tt).
Proof.
  induction values as [|v values IH]; intros pre ws Hlen.
  - simpl. rewrite drop_0. reflexivity.
  - destruct ws as [|w ws]; simpl in Hlen; [lia|].
    cbn [update_widths].
    rewrite list_lookup_middle by reflexivity.
    set (n := String.length (Py.str v)).
    assert (Hw : (if w <? n then <[length pre := n]> (pre ++ w :: ws)
                  else pre ++ w :: ws) = (pre ++ [Nat.max w n]) ++ ws).
    { rewrite <- app_assoc. simpl.
      destruct (Nat.ltb_spec w n).
      - rewrite insert_app_r_alt, Nat.sub_diag by lia. simpl.
        f_equal. f_equal. lia.
      - f_equal. f_equal. lia. }
    rewrite Hw.
    replace (S (length pre)) with (length (pre ++ [Nat.max w n]))
      by (rewrite length_app; simpl; lia).
    rewrite IH by lia.
    rewrite <- app_assoc. reflexivity.
Qed.

Lemma update_widths_fits values widths :
  length values = length widths ->
  update_widths 0 values widths = (widen widths values, Ok tt).
Proof.
  intros Hlen.
  pose proof (update_widths_spec values [] widths) as H.
  simpl in H. rewrite H by lia.
  rewrite Hlen, take_ge, drop_ge by lia.
  rewrite app_nil_r. reflexivity.
Qed.

Lemma length_widen widths values :
  length values = length widths -> length (widen widths values) = length widths.
Proof.
  intros H. unfold widen. rewrite length_zip_with, length_map. lia.
Qed.

(** What a call of [add] with a row of the right length does. *)
Lemma add_fits (t : Table row) values :
  Table_ok t -> length values = _width t ->
  add values t =
    ({| _colnames := _colnames t; _rows := _rows t ++ [values];
        _width := _width t;
        _max_col_widths := widen (_max_col_widths t) values |}, Ok tt).
Proof.
  intros Hok Hlen. unfold add.
  rewrite Hlen, Nat.eqb_refl. simpl.
  rewrite update_widths_fits by (rewrite (ok_widths _ Hok); exact Hlen).
  reflexivity.
Qed.

Lemma add_mismatch (t : Table row) values :
  length values <> _width t ->
  add values t =
    (t, Raise (ValueError (ExpectedValues (_width t) (length values)))).
Proof.
  intros Hlen. unfold add.
  apply Nat.eqb_neq in Hlen. rewrite Hlen. reflexivity.
Qed.

Lemma add_ok (t t' : Table row) values r :
  Table_ok t -> add values t = (t', r) -> Table_ok t'.
Proof.
  intros Hok Hadd.
  destruct (Nat.eq_dec (length values) (_width t)) as [Hlen|Hlen].
  - rewrite add_fits in Hadd by assumption.
    injection Hadd as <- _. destruct Hok. split; simpl.
    + assumption.
    + rewrite length_widen; congruence.
    + apply Forall_app. split; [assumption | repeat constructor; assumption].
  - rewrite add_mismatch in Hadd by assumption.
    injection Hadd as <- _. assumption.
Qed.

(** A run of successful [add] calls: every row had the right length,
    the rows are appended and the widths widened row by row. *)
Lemma add_all_spec rows : forall (t t' : Table row),
  Table_ok t -> add_all rows t = (t', Ok tt) ->
  Table_ok t' /\
  Forall (fun r : row => length r = _width t) rows /\
  _rows t' = _rows t ++ rows /\
  _max_col_widths t' = fold_left widen rows (_max_col_widths t).
Proof.
  induction rows as [|r rows IH]; intros t t' Hok Hall; simpl in Hall.
  - injection Hall as <-. rewrite app_nil_r. auto.
  - destruct (add r t) as [t1 [[]|e]] eqn:Hadd; [|discriminate].
    pose proof (add_ok _ _ _ _ Hok Hadd) as Hok1.
    destruct (Nat.eq_dec (length r) (_width t)) as [Hlen|Hlen].
    2:{ rewrite add_mismatch in Hadd by assumption. discriminate. }
    rewrite add_fits in Hadd by assumption.
    injection Hadd as <-.
    destruct (IH _ _ Hok1 Hall) as (Hok' & Hrows & Hr & Hw).
    simpl in Hrows, Hr, Hw.
    split; [assumption|]. split; [constructor; assumption|].
    split; [|assumption].
    rewrite Hr, <- app_assoc. reflexivity.
Qed.

Lemma widen_lookup widths (values : row) i w v :
  widths !! i = Some w -> values !! i = Some v ->
  widen widths values !! i = Some (Nat.max w (cell_width v)).
Proof.
  intros Hw Hv. unfold widen.
  rewrite lookup_zip_with, Hw, list_lookup_fmap, Hv. reflexivity.
Qed.

(** Widening row by row leaves in place [i] the largest width seen
    there. *)
Lemma fold_widen_lookup rows i : forall widths w,
  Forall (fun r : row => length r = length widths) rows ->
  widths !! i = Some w ->
  fold_left widen rows widths !! i =
    Some (max_list (w :: map cell_width (column i rows))).
Proof.
  induction rows as [|r rows IH]; intros widths w Hrows Hw; simpl.
  - rewrite Hw. f_equal. lia.
  - inversion Hrows as [|? ? Hr Hrows']; subst.
    assert (Hi : i < length r).
    { rewrite Hr. eapply lookup_lt_Some. exact Hw. }
    destruct (lookup_lt_is_Some_2 r i Hi) as [v Hv].
    rewrite (IH _ (Nat.max w (cell_width v))).
    + unfold column. simpl. rewrite Hv. simpl. f_equal. lia.
    + rewrite length_widen by assumption. assumption.
    + apply widen_lookup; assumption.
Qed.

(** C4. After any run of successful [add] calls on a new table, the
    width of column [i] is the largest of the length of its name and the
    lengths of [str(v)] over the cells [v] of that column in the rows
    added; and a further successful [add] lowers no width. *)
Theorem column_widths_track_maximum (colnames : list string)
    (rows : list row) (t : Table row) :
  add_all rows (init colnames) = (t, Ok tt) ->
  (forall i name, colnames !! i = Some name ->
     column_widths t !! i =
       Some (max_list (String.length name ::
                       map (fun v => String.length (Py.str v)) (column i rows)))) /\
  (forall values t', add values t = (t', Ok tt) ->
     forall i w, column_widths t !! i = Some w ->
       exists w', column_widths t' !! i = Some w' /\ w <= w').
Proof.
  intros Hall.
  destruct (add_all_spec _ _ _ (init_ok colnames) Hall)
    as (Hok & Hrows & _ & Hw).
  simpl in Hrows, Hw. split.
  - intros i name Hname. unfold column_widths. rewrite Hw.
    apply fold_widen_lookup.
    + rewrite length_map. exact Hrows.
    + rewrite list_lookup_fmap, Hname. reflexivity.
  - intros values t' Hadd i w Hi.
    destruct (Nat.eq_dec (length values) (_width t)) as [Hlen|Hlen].
    2:{ rewrite add_mismatch in Hadd by assumption. discriminate. }
    rewrite add_fits in Hadd by assumption.
    injection Hadd as <-. unfold column_widths in *. simpl.
    assert (Hv : i < length values).
    { rewrite Hlen, <- (ok_widths _ Hok). eapply lookup_lt_Some. exact Hi. }
    destruct (lookup_lt_is_Some_2 values i Hv) as [v Hv'].
    exists (Nat.max w (cell_width v)). split; [|lia].
    apply widen_lookup; assumption.
Qed.

Lemma column_widths_track_maximum_witness :
  exists t,
    add_all [[VInt 1; VStr "x"]; [VInt 22; VStr "yyy"]] (init ["id"; "v"])
      = (t, Ok tt) /\
    column_widths t !! 1 = Some 3.
Proof.
  eexists. split; [reflexivity|].
  exact (proj1 (column_widths_track_maximum ["id"; "v"]
                  [[VInt 1; VStr "x"]; [VInt 22; VStr "yyy"]] _ eq_refl)
               1 "v" eq_refl).
Defined.

End TableFacts.

(** ** Sorting *)
Section SortFacts.
Import Spec.
Context {K A : Type} (lt : K -> K -> bool).
Hypothesis lt_asym : forall x y, lt x y = true -> lt y x = false.
Hypothesis le_trans :
  forall x y z, lt y x = false -> lt z y = false -> lt z x = false.

Lemma insert_by_perm (x : K * A) l : insert_by lt x l ≡ₚ x :: l.
Proof.
  induction l as [|y l IH]; simpl; [reflexivity|].
  destruct (lt (fst y) (fst x)); [|reflexivity].
  rewrite IH. apply perm_swap.
Qed.

Lemma sort_by_perm (l : list (K * A)) : sort_by lt l ≡ₚ l.
Proof.
  induction l as [|x l IH]; simpl; [reflexivity|].
  rewrite insert_by_perm, IH. reflexivity.
Qed.

Lemma insert_by_sorted (x : K * A) l :
  StronglySorted (key_le lt) l -> StronglySorted (key_le lt) (insert_by lt x l).
Proof using lt_asym le_trans.
  induction 1 as [|y l Hl IH Hy]; simpl.
  - repeat constructor.
  - destruct (lt (fst y) (fst x)) eqn:Hyx.
    + constructor; [exact IH|].
      rewrite insert_by_perm. constructor; [|exact Hy].
      unfold key_le. apply lt_asym. exact Hyx.
    + constructor; [constructor; assumption|].
      constructor; [exact Hyx|].
      eapply Forall_impl; [exact Hy|].
      intros z Hz. unfold key_le in *. eapply le_trans; eassumption.
Qed.

Lemma sort_by_sorted (l : list (K * A)) :
  StronglySorted (key_le lt) (sort_by lt l).
Proof using lt_asym le_trans.
  induction l as [|x l IH]; simpl; [constructor|].
  apply insert_by_sorted. exact IH.
Qed.

(** Sorting what is in order changes nothing. *)
Lemma sort_by_id (l : list (K * A)) :
  Sorted (key_le lt) l -> sort_by lt l = l.
Proof.
  induction 1 as [|x l Hl IH Hx]; simpl; [reflexivity|].
  rewrite IH. destruct Hx as [|y l Hxy]; simpl; [reflexivity|].
  unfold key_le in Hxy. rewrite Hxy. reflexivity.
Qed.

End SortFacts.

(** [<] of Python 2 on the values of a table is a strict weak order. *)
Section PyOrder.

Lemma str_ltb_lt s t : Py.str_ltb s t = true <-> String_as_OT.lt s t.
Proof.
  unfold Py.str_ltb, String_as_OT.lt.
  destruct (String_as_OT.compare s t); split; congruence.
Qed.

Lemma str_ltb_asym s t : Py.str_ltb s t = true -> Py.str_ltb t s = false.
Proof.
  intros H. apply str_ltb_lt in H.
  destruct (Py.str_ltb t s) eqn:H'; [|reflexivity].
  apply str_ltb_lt in H'.
  exfalso. eapply (StrictOrder_Irreflexive s). etransitivity; eassumption.
Qed.

Lemma str_leb_trans s t u :
  Py.str_ltb t s = false -> Py.str_ltb u t = false -> Py.str_ltb u s = false.
Proof.
  intros Hts Hut.
  destruct (Py.str_ltb u s) eqn:Hus; [|reflexivity].
  apply str_ltb_lt in Hus.
  destruct (String_as_OT.compare_spec t s) as [Heq|Hlt|Hgt].
  - change (t = s) in Heq. subst t. apply str_ltb_lt in Hus. congruence.
  - apply str_ltb_lt in Hlt. congruence.
  - assert (String_as_OT.lt u t) as Hlt by (etransitivity; eassumption).
    apply str_ltb_lt in Hlt. congruence.
Qed.

Lemma py_lt_asym a b : Py.lt a b = true -> Py.lt b a = false.
Proof.
  destruct a as [|[]| |], b as [|[]| |]; simpl; try congruence;
    try apply str_ltb_asym; lia.
Qed.

Lemma py_le_trans a b c :
  Py.lt b a = false -> Py.lt c b = false -> Py.lt c a = false.
Proof.
  destruct a as [|[]| |], b as [|[]| |], c as [|[]| |]; simpl;
    try congruence; try apply str_leb_trans; lia.
Qed.

End PyOrder.

(** ** Table.sortby *)
Section SortbyFacts.
Import TableOps Spec.

Lemma list_index_lt name colnames : forall n,
  list_index name colnames = Some n -> n < length colnames.
Proof.
  induction colnames as [|c cs IH]; intros n; simpl; [discriminate|].
  destruct (String.eqb c name).
  - intros [= <-]. lia.
  - destruct (list_index name cs) as [m|]; simpl; [|discriminate].
    intros [= <-]. specialize (IH m eq_refl). lia.
Qed.

(** The column that [sortby] accepts is a column of the table. *)
Lemma sort_column_lt (t : Table row) by_ colnum :
  Table_ok t -> sort_column by_ t = Ok colnum -> colnum < _width t.
Proof.
  intros Hok. destruct by_ as [name|index|index]; simpl.
  - destruct (list_index name (_colnames t)) as [n|] eqn:Hn; [|discriminate].
    intros [= <-]. rewrite <- (ok_colnames _ Hok).
    eapply list_index_lt. exact Hn.
  - destruct (index <? 0)%Z eqn:H0; simpl;
      [destruct (Py.is_int index); discriminate|].
    destruct (Z.of_nat (_width t) <=? index)%Z eqn:H1;
      [destruct (Py.is_int index); discriminate|].
    intros [= <-]. lia.
  - discriminate.
Qed.

(** [sortby] refuses a name that is no column, an index outside
    [0, ncol) and every long. *)
Lemma sortby_rejects (t : Table row) by_ :
  match by_ with
  | ByName name => name ∉ _colnames t
  | ByIndex index => (index < 0 \/ Z.of_nat (ncol t) <= index)%Z
  | ByLong _ => True
  end ->
  exists why, sortby by_ t = (t, Raise (ValueError why)).
Proof.
  destruct by_ as [name|index|index]; intros H; unfold sortby; simpl;
    [| |eauto].
  - assert (Hn : list_index name (_colnames t) = None).
    { induction (_colnames t) as [|c cs IH]; simpl; [reflexivity|].
      destruct (String.eqb_spec c name) as [->|Hne].
      - exfalso. apply H. left.
      - rewrite IH; [reflexivity|]. intros Hin. apply H. right. exact Hin. }
    rewrite Hn. eauto.
  - unfold ncol in H.
    assert (Hb : ((index <? 0)%Z || (Z.of_nat (_width t) <=? index)%Z) = true).
    { apply orb_true_iff. destruct H; [left|right]; lia. }
    rewrite Hb. destruct (Py.is_int index); eauto.
Qed.

Lemma sort_keys_column colnum rows keys :
  sort_keys colnum rows = Some keys -> column colnum rows = keys.
Proof.
  unfold sort_keys, column. intros H. apply mapM_Some in H.
  induction H as [|r k rows keys Hr _ IH]; simpl; [reflexivity|].
  rewrite Hr. simpl. f_equal. exact IH.
Qed.

Lemma sort_keys_total colnum w rows :
  Forall (fun r : row => length r = w) rows -> colnum < w ->
  exists keys, sort_keys colnum rows = Some keys.
Proof.
  intros Hrows Hc. apply mapM_is_Some.
  eapply Forall_impl; [exact Hrows|].
  intros r Hr. simpl. apply lookup_lt_is_Some_2. rewrite Hr. exact Hc.
Qed.

(** The keys of the sorted rows are the keys that went through the
    sort. *)
Lemma sort_keys_sorted colnum rows keys :
  sort_keys colnum rows = Some keys ->
  let sorted := sort_by Py.lt (zip keys rows) in
  sort_keys colnum (map snd sorted) = Some (map fst sorted).
Proof.
  intros H sorted. apply mapM_Some in H. apply mapM_Some.
  assert (Hdec : Forall (fun p : value * row => snd p !! colnum = Some (fst p))
                   (zip keys rows)).
  { induction H; simpl; constructor; assumption. }
  assert (Hs : Forall (fun p : value * row => snd p !! colnum = Some (fst p))
                 sorted).
  { unfold sorted. rewrite sort_by_perm. exact Hdec. }
  clear -Hs. induction Hs; simpl; constructor; assumption.
Qed.


(** C5. On a table whose column [colnum] [sortby] accepts, [sortby]
    returns with the same rows in another order, the values of that
    column then never go down from one row to the next, and a second
    [sortby] on the same column leaves the table exactly as the first
    left it.  ([<] of Python 2 orders all the values of this model.) *)
Theorem sortby_sorts_and_settles (t : Table row) (by_ : name_or_index)
    (colnum : nat) :
  Table_ok t ->
  sort_column by_ t = Ok colnum ->
  exists t',
    sortby by_ t = (t', Ok tt) /\
    _rows t' ≡ₚ _rows t /\
    length (column colnum (_rows t')) = nrow t /\
    StronglySorted py_le (column colnum (_rows t')) /\
    sortby by_ t' = (t', Ok tt).
Proof.
  intros Hok Hcol.
  pose proof (sort_column_lt _ _ _ Hok Hcol) as Hlt.
  destruct (sort_keys_total colnum _ _ (ok_rows _ Hok) Hlt) as [keys Hkeys].
  pose proof (sort_keys_sorted _ _ _ Hkeys) as Hkeys'. simpl in Hkeys'.
  assert (Hlen : length keys = length (_rows t)).
  { apply mapM_Some in Hkeys. symmetry. eapply Forall2_length. exact Hkeys. }
  set (sorted := sort_by Py.lt (zip keys (_rows t))) in *.
  assert (Hsorted : StronglySorted (key_le Py.lt) sorted).
  { apply sort_by_sorted; [exact py_lt_asym | exact py_le_trans]. }
  eexists. split; [|split; [|split; [|split]]].
  - unfold sortby. rewrite Hcol, Hkeys. reflexivity.
  - simpl. fold sorted. unfold sorted. rewrite sort_by_perm.
    rewrite snd_zip by lia. reflexivity.
  - simpl. fold sorted. rewrite (sort_keys_column _ _ _ Hkeys').
    rewrite length_map. unfold sorted. rewrite sort_by_perm.
    rewrite length_zip. unfold nrow. lia.
  - simpl. fold sorted. rewrite (sort_keys_column _ _ _ Hkeys').
    clear -Hsorted. induction Hsorted as [|p l Hl IH Hp]; simpl; constructor.
    + exact IH.
    + apply Forall_fmap. eapply Forall_impl; [exact Hp|].
      intros q Hq. exact Hq.
  - unfold sortby. simpl.
    replace (sort_column by_ _) with (sort_column by_ t)
      by (destruct by_; reflexivity).
    rewrite Hcol. fold sorted. rewrite Hkeys'.
    rewrite zip_fst_snd.
    rewrite (sort_by_id Py.lt sorted); [reflexivity|].
    apply StronglySorted_Sorted. exact Hsorted.
Qed.

Lemma sortby_sorts_and_settles_witness :
  let t : Table row :=
    {| _colnames := ["id"; "v"];
       _rows := [[VInt 3; VStr "c"]; [VInt 1; VStr "a"]; [VInt 2; VStr "b"]];
       _width := 2; _max_col_widths := [2; 1] |} in
  exists t',
    sortby (ByName "id") t = (t', Ok tt) /\
    column 0 (_rows t') = [VInt 1; VInt 2; VInt 3] /\
    sortby (ByName "id") t' = (t', Ok tt).
Proof.
  intros t.
  assert (Hok : Table_ok t).
  { split; simpl; [reflexivity | reflexivity | repeat constructor]. }
  destruct (sortby_sorts_and_settles t (ByName "id") 0 Hok eq_refl)
    as (t' & Hs & _ & _ & _ & Hagain).
  exists t'. split; [exact Hs|]. split; [|exact Hagain].
  vm_compute in Hs. injection Hs as <-. reflexivity.
Defined.

End SortbyFacts.

(** ** Report.is_empty *)
Section ReportFacts.
Import ReportOps Spec.
Context {R : Type}.

(** Induction on a section with the property in hand for every
    sub-section. *)
Lemma ReportSection_ind (P : ReportSection R -> Prop) :
  (forall hdr body sections,
     Forall P sections -> P (mkSection hdr body sections)) ->
  forall s, P s.
Proof.
  intros Hstep.
  fix IH 1. intros [hdr body sections]. apply Hstep.
  induction sections as [|s sections IHs]; constructor.
  - apply IH.
  - exact IHs.
Qed.

(** Counting over a list of sections adds to the total exactly when
    one of them does. *)
Lemma count_sections (sections : list (ReportSection R)) :
  Forall (fun s => forall total, exists n,
            _count_rows s total = total + n /\
            (n = 0 <-> forall t, table_in t s -> TableOps.nrow t = 0))
         sections ->
  forall total, exists n,
    fold_left (fun total s => _count_rows s total) sections total = total + n /\
    (n = 0 <->
     forall s t, s ∈ sections -> table_in t s -> TableOps.nrow t = 0).
Proof.
  induction 1 as [|s sections Hs _ IH]; intros total; simpl.
  - exists 0. split; [lia|]. split; [|reflexivity].
    intros _ s t Hin. inversion Hin.
  - destruct (Hs total) as (n1 & -> & Hn1).
    destruct (IH (total + n1)) as (n2 & -> & Hn2).
    exists (n1 + n2). split; [lia|]. split.
    + intros Hz s' t Hin Ht.
      apply elem_of_cons in Hin as [->|Hin].
      * apply Hn1; [lia | exact Ht].
      * eapply Hn2; [lia | exact Hin | exact Ht].
    + intros Hall.
      assert (n1 = 0) as -> by (apply Hn1; intros t Ht; eapply Hall; [left | exact Ht]).
      assert (n2 = 0) as ->
        by (apply Hn2; intros s' t Hin Ht; eapply Hall; [right; exact Hin | exact Ht]).
      reflexivity.
Qed.

(** [_count_rows] adds to the total the rows of the tables in and below
    the section. *)
Lemma count_rows_spec (s : ReportSection R) : forall total, exists n,
  _count_rows s total = total + n /\
  (n = 0 <-> forall t, table_in t s -> TableOps.nrow t = 0).
Proof.
  induction s as [hdr body sections IH] using ReportSection_ind.
  intros total. cbn [_count_rows].
  set (total1 := match body with
                 | Some t => total + TableOps.nrow t
                 | None => total
                 end).
  destruct (count_sections sections IH total1) as (n & Hn & Hz).
  rewrite Hn.
  destruct body as [t0|]; subst total1.
  - exists (TableOps.nrow t0 + n). split; [lia|]. split.
    + intros Hsum t Ht. inversion Ht; subst.
      * lia.
      * eapply Hz; [lia | eassumption | eassumption].
    + intros Hall.
      assert (TableOps.nrow t0 = 0) as -> by (apply Hall; constructor).
      assert (n = 0) as ->; [|reflexivity].
      apply Hz. intros s t Hin Ht. apply Hall.
      eapply table_in_sub; eassumption.
  - exists n. split; [lia|]. split.
    + intros -> t Ht. inversion Ht; subst.
      eapply Hz; [reflexivity | eassumption | eassumption].
    + intros Hall. apply Hz. intros s t Hin Ht. apply Hall.
      eapply table_in_sub; eassumption.
Qed.

(** C6. [Report.is_empty] answers true exactly when every table that is
    the body of a section of the report, at any depth, has no rows; so it
    does for a report without sections and for one whose tables are all
    empty. *)
Theorem is_empty_iff_no_rows (r : Report R) :
  is_empty r = true <-> forall t, table_of t r -> TableOps.nrow t = 0.
Proof.
  unfold is_empty, table_of.
  destruct (_sections r) as [|s sections] eqn:Hsec.
  - simpl. split; [|reflexivity].
    intros _ t (s & Hin & _). inversion Hin.
  - cbn [length Nat.eqb].
    destruct (count_sections (s :: sections)
                (proj2 (Forall_forall _ _)
                   (fun s' _ => count_rows_spec s')) 0)
      as (n & Hn & Hz).
    rewrite Hn. simpl. rewrite Nat.eqb_eq. rewrite Hz.
    split.
    + intros H t (s' & Hin & Ht). eapply H; eassumption.
    + intros H s' t Hin Ht. apply H. exists s'. auto.
Qed.

End ReportFacts.

(** ** HTMLFormatter: the row loop *)
Section HTMLRows.
Import HTML Spec.

Lemma list_copy_run r σ l :
  σ !! r = Some l -> list_copy r σ = (σ ++ [l], Ok (length σ)).
Proof.
  intros H. unfold list_copy, read, alloc, mbind, St_bind.
  rewrite H. reflexivity.
Qed.

Lemma read_new σ l : read (length σ) (σ ++ [l]) = (σ ++ [l], Ok l).
Proof.
  unfold read. rewrite list_lookup_middle by reflexivity. reflexivity.
Qed.

Lemma getitem_new σ l i n v :
  Py.index l i = Some n -> l !! n = Some v ->
  getitem (length σ) i (σ ++ [l]) = (σ ++ [l], Ok v).
Proof.
  intros Hi Hv. unfold getitem, mbind, St_bind.
  rewrite read_new, Hi, Hv. reflexivity.
Qed.

Lemma setitem_new σ l i n v :
  Py.index l i = Some n ->
  setitem (length σ) i v (σ ++ [l]) = (σ ++ [<[n := v]> l], Ok tt).
Proof.
  intros Hi. unfold setitem, mbind, St_bind.
  rewrite read_new, Hi. unfold write.
  rewrite insert_app_r_alt, Nat.sub_diag by lia. reflexivity.
Qed.

Lemma index_lookup {A} (l : list A) i n :
  Py.index l i = Some n -> is_Some (l !! n).
Proof.
  unfold Py.index. intros H. apply lookup_lt_is_Some_2.
  destruct ((0 <=? i)%Z && (i <? Z.of_nat (length l))%Z) eqn:H1.
  - injection H as <-. lia.
  - destruct ((- Z.of_nat (length l) <=? i)%Z && (i <? 0)%Z) eqn:H2;
      [|discriminate].
    injection H as <-. lia.
Qed.

(** One turn of the row loop on a row that has the identifier column:
    the row object is copied; when the previous key is true and equal
    to the key of the row, the copy loses its identifier and [i] stays,
    otherwise the key is remembered and [i] goes up. *)
Lemma row_body_run idcol prev i text r σ row n key :
  σ !! r = Some row -> Py.index row idcol = Some n -> row !! n = Some key ->
  row_body idcol (prev, i, text) r σ =
    if Py.truthy prev && Py.eq key prev
    then
      let shown := <[n := VStr ""]> row in
      (σ ++ [shown],
       Ok (prev, i,
           ((text ++ [tr_open i]) ++ map (fun v => tag "td" (Py.str v)) shown)
             ++ ["</tr>"]))
    else
      (σ ++ [row],
       Ok (key, S i,
           ((text ++ [tr_open (S i)]) ++ map (fun v => tag "td" (Py.str v)) row)
             ++ ["</tr>"])).
Proof.
  intros Hr Hn Hkey. unfold row_body.
  unfold mbind at 1. unfold St_bind. rewrite (list_copy_run _ _ _ Hr).
  unfold mbind at 1. unfold St_bind. rewrite (getitem_new _ _ _ _ _ Hn Hkey).
  destruct (Py.truthy prev && Py.eq key prev).
  - unfold mbind, St_bind. rewrite (setitem_new _ _ _ _ _ Hn).
    unfold mret, St_ret. rewrite read_new. reflexivity.
  - unfold mbind, St_bind, mret, St_ret. rewrite read_new. reflexivity.
Qed.

(** The row loop changes no object of the store, whatever the row
    reference and the identifier column. *)
Lemma row_body_preserves idcol st r : preserves_store (row_body idcol st r).
Proof.
  intros σ. destruct st as [[prev i] text].
  destruct (σ !! r) as [row|] eqn:Hr.
  - destruct (Py.index row idcol) as [n|] eqn:Hn.
    + destruct (index_lookup _ _ _ Hn) as [key Hkey].
      rewrite (row_body_run _ _ _ _ _ _ _ _ _ Hr Hn Hkey).
      destruct (Py.truthy prev && Py.eq key prev); simpl;
        apply prefix_app_r; reflexivity.
    + unfold row_body, mbind, St_bind.
      rewrite (list_copy_run _ _ _ Hr).
      unfold getitem, mbind, St_bind. rewrite read_new, Hn. simpl.
      apply prefix_app_r. reflexivity.
  - unfold row_body, list_copy, read, mbind, St_bind. rewrite Hr. simpl.
    reflexivity.
Qed.

End HTMLRows.

(** ** HTMLFormatter.format and the store *)
Section HTMLFrame.
Import HTML Spec.

Lemma preserves_ret {A} (a : A) : preserves_store (mret a).
Proof. intros σ. reflexivity. Qed.

Lemma preserves_raise {A} e : preserves_store (raise (A := A) e).
Proof. intros σ. reflexivity. Qed.

Lemma preserves_bind {A B} (m : St A) (f : A -> St B) :
  preserves_store m -> (forall a, preserves_store (f a)) ->
  preserves_store (m ≫= f).
Proof.
  intros Hm Hf σ. unfold mbind, St_bind.
  specialize (Hm σ). destruct (m σ) as [σ1 [a|e]]; simpl in *.
  - etransitivity; [exact Hm | apply Hf].
  - exact Hm.
Qed.

Lemma preserves_foldM {A B} (f : B -> A -> St B) l :
  (forall b a, preserves_store (f b a)) ->
  forall b, preserves_store (foldM f l b).
Proof.
  intros Hf. induction l as [|a l IH]; intros b; simpl.
  - apply preserves_ret.
  - apply preserves_bind; [apply Hf | exact IH].
Qed.

Lemma table_lines_preserves idcol body :
  preserves_store (table_lines idcol body).
Proof.
  destruct body as [t|]; simpl; [|apply preserves_raise].
  apply preserves_bind.
  - apply preserves_foldM. intros st r. apply row_body_preserves.
  - intros [[? ?] ?]. apply preserves_ret.
Qed.

Lemma cond_lines_preserves idcol text cond :
  preserves_store (cond_lines idcol text cond).
Proof.
  unfold cond_lines. apply preserves_bind.
  - apply table_lines_preserves.
  - intros ?. apply preserves_ret.
Qed.

Lemma section_lines_preserves idcol text section :
  preserves_store (section_lines idcol text section).
Proof.
  unfold section_lines. apply preserves_foldM.
  intros ? ?. apply cond_lines_preserves.
Qed.

(** C10. [HTMLFormatter.format] changes nothing it is given.  The rows
    are the only objects it assigns into, and it assigns into the copy
    that [list(row)] made: after the call, also one that raised, the
    store is the store before the call followed by the copies, so every
    row object of every table has the items it had, the identifier
    included.  Headers and sections are only read: the report is an
    argument of [format], and the function has no assignment to it. *)
Theorem html_format_reads_only (f : HTMLFormatter) (report : Report loc)
    (σ : store) :
  σ `prefix_of` fst (HTML.format f report σ) /\
  forall r (row : list value),
    σ !! r = Some row -> fst (HTML.format f report σ) !! r = Some row.
Proof.
  assert (H : preserves_store (HTML.format f report)).
  { unfold format. apply preserves_bind.
    - apply preserves_foldM. intros ? ?. apply section_lines_preserves.
    - intros ?. apply preserves_ret. }
  split; [apply H|].
  intros r row Hr. destruct (H σ) as [ext ->].
  apply lookup_app_l_Some. exact Hr.
Qed.

End HTMLFrame.

(** ** HTMLFormatter: grouping by identifier *)
Section HTMLGrouping.
Import HTML.

(** Identifiers A, A, B with A true in a condition: the second row shows
    no identifier and keeps the class of the first, the third shows B
    under the other class. *)
Example html_groups_AAB :
  let σ := [[VStr "A"; VInt 1]; [VStr "A"; VInt 2]; [VStr "B"; VInt 3]] in
  let t := {| _colnames := ["id"; "v"]; _rows := [0; 1; 2]; _width := 2;
              _max_col_widths := [2; 1] |} in
  snd (table_lines 0 (Some t) σ) =
    Ok ["<table>"; "<tr>"; "<th>id</th>"; "<th>v</th>"; "</tr>";
        tr_open 1; "<td>A</td>"; "<td>1</td>"; "</tr>";
        tr_open 1; "<td></td>"; "<td>2</td>"; "</tr>";
        tr_open 2; "<td>B</td>"; "<td>3</td>"; "</tr>";
        "</table>"].
Proof. reflexivity. Qed.

(** C2. Identifiers 0, 0: the second row has the identifier of the
    first, yet [format] shows its identifier and moves on to the next
    class ("even" after "odd").  The loop tests [prev_key and key ==
    prev_key], and a previous key of 0 is false in a condition, as is an
    empty string. *)
Theorem html_zero_identifier_not_grouped :
  let σ := [[VInt 0; VStr "x"]; [VInt 0; VStr "y"]] in
  let t := {| _colnames := ["id"; "v"]; _rows := [0; 1]; _width := 2;
              _max_col_widths := [2; 1] |} in
  snd (table_lines 0 (Some t) σ) =
    Ok ["<table>"; "<tr>"; "<th>id</th>"; "<th>v</th>"; "</tr>";
        tr_open 1; "<td>0</td>"; "<td>x</td>"; "</tr>";
        tr_open 2; "<td>0</td>"; "<td>y</td>"; "</tr>";
        "</table>"] /\
  rclass 1 = "odd" /\ rclass 2 = "even".
Proof. repeat split. Qed.

End HTMLGrouping.

(** ** JSONFormatter *)
Section JSONFacts.
Import JSON.

(** The keyword dictionary of [format] is walked from "info" on. *)
Lemma report_dict_order (a b c : pyobj) :
  dict_ [("title", a); ("info", b); ("sections", c)] =
    ODict [("info", b); ("sections", c); ("title", a)].
Proof. reflexivity. Qed.

Lemma encode_unknown_first default depth o rest e :
  match o with OHeader _ | OTable _ => True | _ => False end ->
  default o = Raise e ->
  forall key, utf8 key = true ->
    encode default depth (ODict ((key, o) :: rest)) = Raise e.
Proof.
  intros Ho Hd key Hkey.
  destruct depth, o; try contradiction; simpl; rewrite Hkey, Hd; reflexivity.
Qed.

(** C1. [JSONFormatter.format] hands the report header to [json.dumps]
    as a [Header] object under "info", and names [MongoJSONEncoder] as
    the encoder class: whenever the [default] of that class raises on
    the header, as [json.JSONEncoder.default] does on every object,
    [format] raises the same exception and returns no document. *)
Theorem json_format_raises_on_header
    (mongo_default : pyobj -> result pyobj) (f : JSONFormatter)
    (report : Report (list value)) (e : exn) :
  mongo_default (OHeader (_hdr report)) = Raise e ->
  JSON.format mongo_default f report = Raise e.
Proof.
  intros H. unfold JSON.format, dumps, report_obj.
  rewrite report_dict_order.
  apply encode_unknown_first; [exact I | exact H | reflexivity].
Qed.

Lemma json_format_raises_on_header_witness :
  let t := fst (TableOps.add_all [[VInt 1; VStr "x"]; [VInt 2; VStr "y"]]
                  (TableOps.init ["id"; "v"])) in
  let report :=
    mkReport (mkHeader [("a", VInt 1)] "T")
      [mkSection (mkHeader [] "S") None
         [mkSection (mkHeader [] "C") (Some t) []]] in
  JSON.format MongoJSONEncoder_default (mkJSONFormatter 0 2) report
    = Raise TypeError.
Proof.
  intros t report.
  exact (json_format_raises_on_header MongoJSONEncoder_default
           (mkJSONFormatter 0 2) report TypeError eq_refl).
Defined.

(** With [ReportJSONEncoder] as the encoder class the same report gives
    the document: the title of the header, and under
    sections[0].conditions[0].violations the two rows of the table. *)
Example json_report_encoder_document :
  let t := fst (TableOps.add_all [[VInt 1; VStr "x"]; [VInt 2; VStr "y"]]
                  (TableOps.init ["id"; "v"])) in
  let report :=
    mkReport (mkHeader [("a", VInt 1)] "T")
      [mkSection (mkHeader [] "S") None
         [mkSection (mkHeader [] "C") (Some t) []]] in
  exists doc,
    dumps (ReportJSONEncoder_default MongoJSONEncoder_default)
          (report_obj report) = Ok doc /\
    member "title" doc = Some (JStr "T") /\
    member "info" doc = Some (JObj [("a", JNum 1)]) /\
    exists violations,
      get [inl "sections"; inr 0; inl "conditions"; inr 0; inl "violations"]
          doc = Some violations /\
      len violations = Some 2.
Proof.
  eexists. split; [vm_compute; reflexivity|].
  split; [reflexivity|]. split; [reflexivity|].
  eexists. split; reflexivity.
Qed.

End JSONFacts.

(** ** Emailer.send *)
Section EmailerFacts.
Import EmailerOps.

Lemma split_nonempty c s : Py.split c s <> [].
Proof.
  destruct s as [|a s]; simpl; [discriminate|].
  destruct (Ascii.eqb a c); [discriminate|].
  destruct (Py.split c s); discriminate.
Qed.

(** [split] gives one piece more than there are separators. *)
Lemma split_length c s : length (Py.split c s) = S (Py.count c s).
Proof.
  induction s as [|a s IH]; simpl; [reflexivity|].
  destruct (Ascii.eqb a c); simpl.
  - rewrite IH. reflexivity.
  - pose proof (split_nonempty c s) as Hne.
    destruct (Py.split c s) as [|p ps]; [contradiction|].
    simpl in *. exact IH.
Qed.

Lemma split_two c s :
  Py.count c s = 1 -> exists main_fmt sub_fmt, Py.split c s = [main_fmt; sub_fmt].
Proof.
  intros H. pose proof (split_length c s) as Hl. rewrite H in Hl.
  destruct (Py.split c s) as [|a [|b [|]]]; try discriminate. eauto.
Qed.

(** C7. For a format "main/sub" [send] returns, whatever the mail server
    does: 0 when connecting, sending or closing the connection with
    [quit] raises, and the number of recipients when all three go
    through.  A send that succeeds is not enough for the count. *)
Theorem send_swallows_smtp_failure (smtp : SMTP) (e : Emailer)
    (text fmt : string) :
  Py.count "/" fmt = 1 ->
  exists main_fmt sub_fmt,
    Py.split "/" fmt = [main_fmt; sub_fmt] /\
    let kw := connection e in
    let msg := message e text sub_fmt in
    let sendmail := on_sendmail smtp (_sender e) (_recipients e) msg in
    (is_Some (on_connect smtp kw) \/ is_Some sendmail \/ is_Some (on_quit smtp) ->
       snd (send smtp e text fmt) = Ok 0) /\
    (on_connect smtp kw = None -> sendmail = None -> on_quit smtp = None ->
       snd (send smtp e text fmt) = Ok (length (_recipients e))).
Proof.
  intros Hfmt. destruct (split_two _ _ Hfmt) as (main_fmt & sub_fmt & Hsplit).
  exists main_fmt, sub_fmt. split; [exact Hsplit|].
  unfold send. rewrite Hsplit. unfold try_send. split.
  - intros Hfail.
    destruct (on_connect smtp (connection e)); [reflexivity|].
    destruct (on_sendmail smtp _ _ _); [reflexivity|].
    destruct (on_quit smtp); [reflexivity|].
    destruct Hfail as [[? ?]|[[? ?]|[? ?]]]; discriminate.
  - intros -> -> ->. reflexivity.
Qed.

Lemma send_swallows_smtp_failure_witness :
  let e := mkEmailer "me@localhost" ["a@x"; "b@x"] "Report" "localhost" None in
  let down := mkSMTP (fun _ => Some "Connection refused")
                     (fun _ _ _ => None) None in
  let up := mkSMTP (fun _ => None) (fun _ _ _ => None) None in
  snd (send down e "<p>hi</p>" "text/html") = Ok 0 /\
  snd (send up e "<p>hi</p>" "text/html") = Ok 2.
Proof.
  intros e down up.
  destruct (send_swallows_smtp_failure down e "<p>hi</p>" "text/html" eq_refl)
    as (? & ? & _ & Hdown & _).
  destruct (send_swallows_smtp_failure up e "<p>hi</p>" "text/html" eq_refl)
    as (? & ? & _ & _ & Hup).
  split.
  - apply Hdown. left. eexists. reflexivity.
  - apply Hup; reflexivity.
Defined.

(** A mail server that takes the connection and the message and then
    fails on [quit]: the send has succeeded, and [send] returns 0, not
    the number of recipients. *)
Lemma send_returns_zero_when_quit_fails :
  let e := mkEmailer "me@localhost" ["a@x"; "b@x"] "Report" "localhost" None in
  let smtp := mkSMTP (fun _ => None) (fun _ _ _ => None)
                     (Some "Connection unexpectedly closed") in
  on_connect smtp (connection e) = None /\
  on_sendmail smtp (_sender e) (_recipients e) (message e "<p>hi</p>" "html")
    = None /\
  send smtp e "<p>hi</p>" "text/html"
    = ([LogInfo (connection e); Connect (connection e);
        Sendmail (_sender e) (_recipients e) (message e "<p>hi</p>" "html");
        Quit; LogError "Connection unexpectedly closed"], Ok 0) /\
  snd (send smtp e "<p>hi</p>" "text/html") <> Ok (length (_recipients e)).
Proof.
  intros e smtp. split; [reflexivity|]. split; [reflexivity|].
  split; [reflexivity | discriminate].
Qed.

(** C9. For a format without "/" or with more than one, [send] raises
    the ValueError of the failed tuple assignment before anything else
    happens: nothing is logged and no connection is attempted. *)
Theorem send_rejects_malformed_format (smtp : SMTP) (e : Emailer)
    (text fmt : string) :
  Py.count "/" fmt <> 1 ->
  send smtp e text fmt =
    ([], Raise (ValueError (Unpack (S (Py.count "/" fmt))))).
Proof.
  intros Hfmt. unfold send.
  pose proof (split_length "/" fmt) as Hl.
  destruct (Py.split "/" fmt) as [|a [|b [|c l]]] eqn:Hs; simpl in Hl.
  - discriminate.
  - rewrite <- Hl. reflexivity.
  - exfalso. apply Hfmt. lia.
  - rewrite <- Hl. reflexivity.
Qed.

Lemma send_rejects_malformed_format_witness :
  let e := mkEmailer "me@localhost" ["a@x"] "Report" "localhost" None in
  let up := mkSMTP (fun _ => None) (fun _ _ _ => None) None in
  send up e "hi" "html" = ([], Raise (ValueError (Unpack 1))) /\
  send up e "hi" "text/html/x" = ([], Raise (ValueError (Unpack 3))).
Proof.
  intros e up. split.
  - apply (send_rejects_malformed_format up e "hi" "html"). simpl. lia.
  - apply (send_rejects_malformed_format up e "hi" "text/html/x"). simpl. lia.
Defined.

End EmailerFacts.

(** * Further properties *)

(** ** Table: the invariant and the calls *)
Section TableUsage.
Import TableOps Spec Usage.




(** X2. A run of [add] calls on a new table goes through without a raise
    exactly when every row has as many values as there are column names
    and [str()] returns on every value; the table then holds the rows in
    the order they were added.  (Over the scalars [str()] always returns;
    on a unicode string with a character outside ASCII it raises.) *)
Theorem add_all_succeeds_iff {C : Type} (str_ : C -> result string)
    (colnames : list string) (rows : list (list C)) :
  Forall (fun r => length r = length colnames /\
                   Forall (Cells.printable str_) r) rows <->
  exists t, Cells.add_all str_ rows (init colnames) = (t, Ok tt) /\
            _rows t = rows.
Proof.
  split.
  - intros Hrows.
    destruct (cells_add_all_fits str_ rows (init colnames)) as [t Ht].
    + simpl. apply length_map.
    + exact Hrows.
    + exists t. split; [exact Ht|].
      apply cells_add_all_returns in Ht as [_ Hr]. exact Hr.
  - intros (t & Ht & _).
    apply cells_add_all_returns in Ht as [Hrows _]. exact Hrows.
Qed.

Lemma list_index_None name colnames :
  list_index name colnames = None <-> name ∉ colnames.
Proof.
  induction colnames as [|c cs IH]; simpl.
  - split; [intros _ H; inversion H | reflexivity].
  - destruct (String.eqb_spec c name) as [->|Hne].
    + split; [discriminate | intros H; exfalso; apply H; left].
    + destruct (list_index name cs) as [n|]; simpl.
      * split; [discriminate|]. intros H. exfalso.
        assert (Hin : name ∈ cs).
        { destruct (decide (name ∈ cs)) as [Hin|Hnin]; [exact Hin|].
          apply IH in Hnin. discriminate. }
        apply H. right. exact Hin.
      * split; [|reflexivity]. intros _ Hin.
        apply elem_of_cons in Hin as [->|Hin]; [congruence|].
        apply (proj1 IH eq_refl). exact Hin.
Qed.

(** [colnames.index(name)] is the first place where [name] stands. *)
Lemma list_index_first name colnames : forall n,
  list_index name colnames = Some n ->
  colnames !! n = Some name /\
  forall m, m < n -> colnames !! m <> Some name.
Proof.
  induction colnames as [|c cs IH]; intros n; simpl; [discriminate|].
  destruct (String.eqb_spec c name) as [->|Hne].
  - intros [= <-]. split; [reflexivity | intros m Hm; lia].
  - destruct (list_index name cs) as [k|]; simpl; [|discriminate].
    intros [= <-]. destruct (IH k eq_refl) as [H1 H2].
    split; [exact H1|].
    intros [|m] Hm; simpl; [congruence | apply H2; lia].
Qed.

(** X3. On a table in shape, [sortby] goes on to sort when it is given
    the name of a column or an int from 0 to [ncol - 1].  Given anything
    else it raises a ValueError and leaves the table as it was: 'index out
    of range' for an int, 'column .. not in ..' for a name and for a long,
    which is never taken as an index, not even [1L]. *)
Theorem sortby_accepts_iff (t : Table row) (by_ : name_or_index) :
  Table_ok t ->
  (names_column by_ t -> exists t', sortby by_ t = (t', Ok tt)) /\
  (~ names_column by_ t -> sortby by_ t = (t, Raise (sortby_error by_ t))).
Proof.
  intros Hok. split.
  - intros Hcol.
    assert (Hc : exists colnum, sort_column by_ t = Ok colnum).
    { destruct by_ as [name|index|index]; simpl in *.
      - destruct (list_index name (_colnames t)) as [n|] eqn:Hn; [eauto|].
        apply list_index_None in Hn. contradiction.
      - unfold ncol in Hcol.
        destruct (index <? 0)%Z eqn:H0; [lia|].
        destruct (Z.of_nat (_width t) <=? index)%Z eqn:H1; [lia|].
        simpl. eauto.
      - contradiction. }
    destruct Hc as [colnum Hc].
    pose proof (sort_column_lt _ _ _ Hok Hc) as Hlt.
    destruct (sort_keys_total colnum _ _ (ok_rows _ Hok) Hlt) as [keys Hkeys].
    unfold sortby. rewrite Hc, Hkeys. eauto.
  - intros Hcol. unfold sortby.
    destruct by_ as [name|index|index]; simpl in *.
    + assert (Hn : list_index name (_colnames t) = None)
        by (apply list_index_None; exact Hcol).
      rewrite Hn. reflexivity.
    + unfold ncol in Hcol.
      assert (Hb : ((index <? 0)%Z || (Z.of_nat (_width t) <=? index)%Z) = true).
      { apply orb_true_iff.
        destruct (Z.ltb_spec index 0); [left; reflexivity|right].
        apply Z.leb_le. lia. }
      rewrite Hb. unfold ncol. destruct (Py.is_int index); reflexivity.
    + reflexivity.
Qed.

Lemma sortby_accepts_iff_witness :
  let t : Table row :=
    {| _colnames := ["id"; "v"];
       _rows := [[VInt 2; VStr "b"]; [VInt 1; VStr "a"]];
       _width := 2; _max_col_widths := [2; 1] |} in
  (exists t', sortby (ByIndex 1) t = (t', Ok tt)) /\
  sortby (ByName "w") t = (t, Raise (ValueError (ColumnNotIn "w" ["id"; "v"]))) /\
  sortby (ByIndex 2) t = (t, Raise (ValueError (IndexOutOfRange 1))) /\
  sortby (ByLong 1) t = (t, Raise (ValueError (ColumnNotIn "1" ["id"; "v"]))) /\
  sortby (ByIndex (2 ^ 64)) t
    = (t, Raise (ValueError (ColumnNotIn "18446744073709551616" ["id"; "v"]))).
Proof.
  intros t.
  assert (Hok : Table_ok t).
  { split; simpl; [reflexivity | reflexivity | repeat constructor]. }
  split; [|split; [|split; [|split]]].
  - apply (proj1 (sortby_accepts_iff t (ByIndex 1) Hok)). simpl. lia.
  - apply (proj2 (sortby_accepts_iff t (ByName "w") Hok)). simpl.
    intros H. repeat (apply elem_of_cons in H as [H|H]; [discriminate|]).
    inversion H.
  - apply (proj2 (sortby_accepts_iff t (ByIndex 2) Hok)). simpl. lia.
  - apply (proj2 (sortby_accepts_iff t (ByLong 1) Hok)). simpl. tauto.
  - apply (proj2 (sortby_accepts_iff t (ByIndex (2 ^ 64)) Hok)). simpl. lia.
Defined.

(** X4. Sorting by a name is sorting by the index of the first column of
    that name: a later column of the same name is never the sort key. *)
Theorem sortby_name_is_first_index (t : Table row) (name : string) (n : nat) :
  _colnames t !! n = Some name ->
  (forall m, m < n -> _colnames t !! m <> Some name) ->
  n < _width t ->
  sortby (ByName name) t = sortby (ByIndex (Z.of_nat n)) t.
Proof.
  intros Hn Hfirst Hlt.
  assert (Hidx : list_index name (_colnames t) = Some n).
  { destruct (list_index name (_colnames t)) as [k|] eqn:Hk.
    - destruct (list_index_first _ _ _ Hk) as [H1 H2].
      destruct (Nat.lt_trichotomy k n) as [H|[H|H]].
      + exfalso. eapply Hfirst; eassumption.
      + congruence.
      + exfalso. eapply H2; eassumption.
    - apply list_index_None in Hk. exfalso. apply Hk.
      eapply list_elem_of_lookup_2. exact Hn. }
  unfold sortby. simpl. rewrite Hidx.
  destruct (Z.of_nat n <? 0)%Z eqn:H0; [lia|].
  destruct (Z.of_nat (_width t) <=? Z.of_nat n)%Z eqn:H1; [lia|].
  simpl. rewrite Nat2Z.id. reflexivity.
Qed.

Lemma sortby_name_is_first_index_witness :
  let t : Table row :=
    {| _colnames := ["id"; "v"; "v"];
       _rows := [[VInt 1; VStr "b"; VStr "x"]; [VInt 2; VStr "a"; VStr "y"]];
       _width := 3; _max_col_widths := [2; 1; 1] |} in
  sortby (ByName "v") t = sortby (ByIndex 1) t.
Proof.
  intros t. apply (sortby_name_is_first_index t "v" 1).
  - reflexivity.
  - intros [|m] Hm; simpl; [discriminate | lia].
  - simpl. lia.
Defined.

End TableUsage.

(** ** Table.sortby keeps ties in order *)
Section SortStable.
Context {K A : Type} (lt : K -> K -> bool).

(** Over items that pairwise are not below one another, insertion changes
    nothing of their order. *)
Lemma insert_by_filter (P : K * A -> bool) x l :
  (forall y, P x = true -> P y = true -> lt (fst y) (fst x) = false) ->
  List.filter P (insert_by lt x l) = List.filter P (x :: l).
Proof.
  intros HP. induction l as [|y l IH]; [reflexivity|].
  cbn [insert_by]. destruct (lt (fst y) (fst x)) eqn:Hyx; [|reflexivity].
  cbn [List.filter] in *. rewrite IH.
  destruct (P x) eqn:Hx; [|reflexivity].
  destruct (P y) eqn:Hy; [|reflexivity].
  rewrite (HP y eq_refl Hy) in Hyx. discriminate.
Qed.

Lemma sort_by_filter (P : K * A -> bool) l :
  (forall x y, P x = true -> P y = true -> lt (fst y) (fst x) = false) ->
  List.filter P (sort_by lt l) = List.filter P l.
Proof.
  intros HP. induction l as [|x l IH]; [reflexivity|].
  cbn [sort_by]. rewrite insert_by_filter by (intros y; apply HP).
  cbn [List.filter]. rewrite IH. reflexivity.
Qed.

End SortStable.

Section TableStable.
Import TableOps Spec Usage.

(** X5. [sortby] is stable: the rows whose keys tie with a given key are
    after the sort in the order they were in before. *)
Theorem sortby_keeps_ties_in_order (t t' : Table row) (by_ : name_or_index)
    (colnum : nat) (k : value) :
  sort_column by_ t = Ok colnum ->
  sortby by_ t = (t', Ok tt) ->
  List.filter (ties_with colnum k) (_rows t') =
  List.filter (ties_with colnum k) (_rows t).
Proof.
  intros Hcol. unfold sortby. rewrite Hcol.
  destruct (sort_keys colnum (_rows t)) as [keys|] eqn:Hkeys; [|discriminate].
  intros [= <-]. simpl.
  pose proof Hkeys as Hf. apply mapM_Some in Hf.
  assert (Hlen : length keys = length (_rows t))
    by (symmetry; eapply Forall2_length; exact Hf).
  assert (Hdec : Forall (fun p : value * row => snd p !! colnum = Some (fst p))
                   (zip keys (_rows t))).
  { clear -Hf. induction Hf; simpl; constructor; assumption. }
  set (P := fun p : value * row => same_key k (fst p)).
  assert (Hagree : forall l : list (value * row),
            Forall (fun p => snd p !! colnum = Some (fst p)) l ->
            List.filter (ties_with colnum k) (map snd l) =
            map snd (List.filter P l)).
  { intros l Hl. rewrite filter_map_swap. f_equal.
    apply filter_ext_in. intros p Hp.
    rewrite Forall_forall in Hl.
    apply list_elem_of_In in Hp. specialize (Hl p Hp).
    unfold ties_with, P. rewrite Hl. reflexivity. }
  rewrite Hagree by (rewrite sort_by_perm; exact Hdec).
  rewrite sort_by_filter.
  - rewrite <- Hagree by exact Hdec. rewrite snd_zip by lia. reflexivity.
  - intros x y Hx Hy. unfold P, same_key in Hx, Hy.
    apply andb_true_iff in Hx as [Hx1 Hx2], Hy as [Hy1 Hy2].
    apply negb_true_iff in Hx1, Hx2, Hy1, Hy2.
    eapply py_le_trans; eassumption.
Qed.

Lemma sortby_keeps_ties_in_order_witness :
  let t : Table row :=
    {| _colnames := ["id"; "v"];
       _rows := [[VInt 2; VStr "first"]; [VInt 1; VStr "a"];
                 [VInt 2; VStr "second"]];
       _width := 2; _max_col_widths := [2; 6] |} in
  exists t',
    sortby (ByIndex 0) t = (t', Ok tt) /\
    List.filter (ties_with 0 (VInt 2)) (_rows t') =
      [[VInt 2; VStr "first"]; [VInt 2; VStr "second"]].
Proof.
  intros t. eexists. split; [reflexivity|].
  exact (sortby_keeps_ties_in_order t _ (ByIndex 0) 0 (VInt 2) eq_refl eq_refl).
Defined.

Lemma row_dict_fits (t : Table row) (r : row) :
  length (_colnames t) = _width t -> length r = _width t ->
  exists d, row_dict t r = Ok d.
Proof.
  intros Hc Hr. unfold row_dict.
  assert (H : is_Some (mapM (fun i => c ← _colnames t !! i; v ← r !! i; Some (c, v))
                         (seq 0 (_width t)))).
  { apply mapM_is_Some. apply Forall_forall. intros i Hi.
    apply elem_of_seq in Hi. simpl.
    destruct (lookup_lt_is_Some_2 (_colnames t) i) as [c ->]; [lia|].
    destruct (lookup_lt_is_Some_2 r i) as [v ->]; [lia|].
    simpl. eauto. }
  destruct H as [kvs ->]. eauto.
Qed.

Lemma values_of_fits (t : Table row) rows :
  length (_colnames t) = _width t ->
  Forall (fun r : row => length r = _width t) rows ->
  exists ds, values_of t rows = Ok ds /\ length ds = length rows.
Proof.
  intros Hc. induction 1 as [|r rows Hr _ IH]; simpl; [eauto|].
  destruct (row_dict_fits t r Hc Hr) as [d ->].
  destruct IH as (ds & -> & Hlen).
  exists (d :: ds). simpl. auto.
Qed.

(** X6. On a table in shape [values] returns, with one dictionary for
    every row. *)
Theorem values_one_dict_per_row (t : Table row) :
  Table_ok t ->
  exists ds, values t = Ok ds /\ length ds = nrow t.
Proof.
  intros Hok. apply values_of_fits; [apply ok_colnames | apply ok_rows]; exact Hok.
Qed.

Lemma values_one_dict_per_row_witness :
  exists ds,
    values (fst (add_all [[VInt 1; VStr "x"]; [VInt 2; VStr "y"]]
                   (init ["id"; "v"]))) = Ok ds /\
    length ds = 2.
Proof.
  apply (values_one_dict_per_row
           (fst (add_all [[VInt 1; VStr "x"]; [VInt 2; VStr "y"]]
                   (init ["id"; "v"])))).
  split; simpl; [reflexivity | reflexivity | repeat constructor].
Defined.

End TableStable.

(** ** Header *)
Section HeaderFacts.
Import HeaderOps.

Lemma get_app key kv1 kv2 title1 :
  get key (mkHeader (kv1 ++ kv2) title1) =
  get key (mkHeader kv1 title1) ++ get key (mkHeader kv2 title1).
Proof.
  unfold get. simpl. rewrite filter_app, map_app. reflexivity.
Qed.

(** X7. [Header.get] after [Header.add]: the added value comes last among
    the values of its key, after those that were there, and the values of
    any other key are what they were; a new header has no value for any
    key. *)
Theorem header_get_add (h : Header) (key key' : string) (v : value) :
  get key (add key v h) = get key h ++ [v] /\
  (key' <> key -> get key' (add key v h) = get key' h) /\
  get key (init (title h)) = [].
Proof.
  destruct h as [kv ti]. unfold add. simpl.
  split; [|split].
  - rewrite get_app. f_equal.
    unfold get. simpl. rewrite filter_cons_True; [reflexivity|].
    simpl. rewrite String.eqb_refl. exact I.
  - intros Hne. rewrite get_app.
    assert (H : get key' (mkHeader [(key, v)] ti) = []).
    { unfold get. simpl. rewrite filter_cons_False; [reflexivity|].
      simpl. destruct (String.eqb_spec key key'); [congruence|]. exact id. }
    rewrite H, app_nil_r. reflexivity.
  - reflexivity.
Qed.

End HeaderFacts.

(** ** Report.add_section and is_empty *)
Section ReportUsage.
Import ReportOps Spec.
Context {R : Type}.

Lemma count_all (sections : list (ReportSection R)) total :
  exists n,
    fold_left (fun total s => _count_rows s total) sections total = total + n /\
    (n = 0 <->
     forall s t, s ∈ sections -> table_in t s -> TableOps.nrow t = 0).
Proof.
  apply count_sections. apply Forall_forall.
  intros s _. apply count_rows_spec.
Qed.

(** X8. A report with a section more is empty exactly when it was empty
    and no table in or below the new section has a row. *)
Theorem is_empty_add_section (r : Report R) (s : ReportSection R) :
  is_empty (add_section s r) = true <->
  is_empty r = true /\ forall t, table_in t s -> TableOps.nrow t = 0.
Proof.
  unfold is_empty, add_section. simpl.
  rewrite length_app. simpl.
  replace (length (_sections r) + 1 =? 0) with false
    by (symmetry; apply Nat.eqb_neq; lia).
  destruct (count_all (_sections r ++ [s]) 0) as (n & Hn & Hz).
  rewrite Hn. simpl. rewrite Nat.eqb_eq, Hz.
  destruct (count_all (_sections r) 0) as (m & Hm & Hmz).
  split.
  - intros H. split.
    + destruct (length (_sections r) =? 0); [reflexivity|].
      rewrite Hm. simpl. apply Nat.eqb_eq. apply Hmz.
      intros s' t Hin Ht. eapply H; [|exact Ht].
      apply elem_of_app. left. exact Hin.
    + intros t Ht. eapply H; [|exact Ht].
      apply elem_of_app. right. left.
  - intros [Hr Hs] s' t Hin Ht.
    apply elem_of_app in Hin as [Hin|Hin].
    + destruct (_sections r) as [|s0 ss] eqn:Hsec; [inversion Hin|].
      cbn [length Nat.eqb] in Hr. rewrite Hm in Hr. simpl in Hr.
      apply Nat.eqb_eq in Hr. eapply Hmz; eassumption.
    + apply list_elem_of_singleton in Hin as ->. apply Hs. exact Ht.
Qed.

End ReportUsage.

(** ** The dictionary: size and contents *)
Section PyDictFacts.
Import PyDict.
Context {V : Type}.

Lemma land_mask_range (a mask : Z) :
  (0 <= mask)%Z -> (0 <= Z.land a mask <= mask)%Z.
Proof.
  intros Hm. split; [apply Z.land_nonneg; right; exact Hm|].
  assert (H0 : Z.ldiff (Z.land a mask) mask = 0%Z).
  { apply Z.bits_inj'. intros n Hn.
    rewrite Z.ldiff_spec, Z.land_spec, Z.bits_0.
    destruct (Z.testbit a n), (Z.testbit mask n); reflexivity. }
  pose proof (Z.sub_nocarry_ldiff mask (Z.land a mask) H0) as Hsub.
  assert (0 <= Z.ldiff mask (Z.land a mask))%Z
    by (apply Z.ldiff_nonneg; left; exact Hm).
  lia.
Qed.

Lemma probe_range fuel (table : list (option (entry V))) mask hash key i perturb :
  (0 <= mask)%Z -> (0 <= probe fuel table mask hash key i perturb <= mask)%Z.
Proof.
  intros Hm. revert i perturb.
  induction fuel as [|fuel IH]; intros i perturb; simpl.
  - apply land_mask_range. exact Hm.
  - destruct (slot_free_or_key _ _ _ _); [apply land_mask_range; exact Hm|].
    apply IH.
Qed.

(** The slot that a lookup settles on is a slot of the table. *)
Lemma lookdict_range (table : list (option (entry V))) mask hash key :
  (0 <= mask)%Z -> (0 <= lookdict_string table mask hash key <= mask)%Z.
Proof.
  intros Hm. unfold lookdict_string.
  destruct (slot_free_or_key _ _ _ _);
    [apply land_mask_range | apply probe_range]; exact Hm.
Qed.

Lemma active_insert (table : list (option (entry V))) (slot : nat)
    (o : option (entry V)) (e : entry V) :
  table !! slot = Some o ->
  length (active (<[slot := Some e]> table)) =
  length (active table) + (match o with Some _ => 0 | None => 1 end).
Proof.
  intros Hs.
  pose proof (lookup_lt_Some _ _ _ Hs) as Hlt.
  rewrite insert_take_drop by exact Hlt.
  rewrite <- (take_drop_middle _ _ _ Hs) at 3.
  unfold active. rewrite !omap_app, !length_app.
  destruct o; simpl; lia.
Qed.

Lemma active_pos (table : list (option (entry V))) (slot : nat) (e : entry V) :
  table !! slot = Some (Some e) -> 0 < length (active table).
Proof.
  intros Hs. rewrite <- (take_drop_middle _ _ _ Hs).
  unfold active. rewrite omap_app, length_app. simpl. lia.
Qed.

Lemma insertdict_ok (d : dict V) hash key v :
  dict_ok d ->
  dict_ok (insertdict d hash key v) /\ 0 < ma_used (insertdict d hash key v).
Proof.
  intros [Hm Ht Hu]. unfold insertdict. cbv zeta.
  pose proof (lookdict_range (ma_table d) (ma_mask d) hash key Hm) as Hr.
  set (slot := Z.to_nat (lookdict_string (ma_table d) (ma_mask d) hash key)).
  assert (Hlt : slot < length (ma_table d)) by (rewrite Ht; unfold slot; lia).
  destruct (_ !! slot) as [o|] eqn:Ho.
  2:{ apply lookup_ge_None in Ho. exfalso. apply (Nat.lt_irrefl slot).
      eapply Nat.lt_le_trans; [exact Hlt | exact Ho]. }
  destruct o as [[[h k] v0]|].
  - pose proof (active_insert _ _ _ (h, k, v) Ho) as Hlen.
    rewrite Nat.add_0_r in Hlen.
    pose proof (active_pos _ _ _ Ho) as Hpos.
    split; [split; simpl|simpl].
    + exact Hm.
    + rewrite length_insert. exact Ht.
    + exact (eq_trans Hu (eq_sym Hlen)).
    + rewrite Hu. exact Hpos.
  - pose proof (active_insert _ _ _ (hash, key, v) Ho) as Hlen.
    rewrite Nat.add_1_r in Hlen.
    split; [split; simpl|simpl; lia].
    + exact Hm.
    + rewrite length_insert. exact Ht.
    + rewrite Hu. symmetry. exact Hlen.
Qed.

Lemma grow_size_ge fuel newsize minused :
  (8 <= newsize)%Z -> (8 <= grow_size fuel newsize minused)%Z.
Proof.
  revert newsize. induction fuel as [|fuel IH]; intros newsize Hn; simpl.
  - exact Hn.
  - destruct (newsize <=? minused)%Z; [apply IH; lia | exact Hn].
Qed.

Lemma active_new_table size : active (new_table (V := V) size) = [].
Proof.
  unfold active, new_table.
  induction (Z.to_nat size) as [|n IH]; simpl; [reflexivity | exact IH].
Qed.

Lemma refill_ok (entries : list (entry V)) : forall d : dict V,
  dict_ok d ->
  let d' := fold_left (fun d' '(h, k, v) => insertdict d' h k v) entries d in
  dict_ok d' /\ (entries <> [] -> 0 < ma_used d').
Proof.
  induction entries as [|[[h k] v] entries IH]; intros d Hok; simpl.
  - split; [exact Hok | congruence].
  - destruct (insertdict_ok d h k v Hok) as [Hok1 Hpos].
    destruct (IH _ Hok1) as [Hok' Hpos']. split; [exact Hok'|].
    intros _. destruct entries as [|e entries]; [exact Hpos|].
    apply Hpos'. discriminate.
Qed.

Lemma dictresize_ok (d : dict V) minused :
  dict_ok d -> 0 < ma_used d ->
  dict_ok (dictresize d minused) /\ 0 < ma_used (dictresize d minused).
Proof.
  intros Hok Hpos. unfold dictresize.
  pose proof (grow_size_ge (Z.to_nat minused) PyDict_MINSIZE minused
                (Z.le_refl 8)) as Hge.
  set (newsize := grow_size _ _ _) in *.
  assert (Hnew : dict_ok (mkDict (V := V) 0 (newsize - 1)%Z (new_table newsize))).
  { split; simpl.
    - lia.
    - unfold new_table. rewrite length_replicate. f_equal. lia.
    - rewrite active_new_table. reflexivity. }
  destruct (refill_ok (active (ma_table d)) _ Hnew) as [H1 H2].
  split; [exact H1|]. apply H2.
  intros Hnil. rewrite (ok_used _ Hok), Hnil in Hpos. simpl in Hpos. lia.
Qed.

Lemma setitem_ok (d : dict V) key v :
  dict_ok d ->
  dict_ok (setitem d key v) /\ 0 < ma_used (setitem d key v).
Proof.
  intros Hok. unfold setitem.
  destruct (insertdict_ok d (string_hash key) key v Hok) as [Hok1 Hpos].
  destruct (andb _ _); [|auto].
  apply dictresize_ok; assumption.
Qed.

Lemma empty_ok : dict_ok (empty (V := V)).
Proof.
  split; simpl; [unfold PyDict_MINSIZE; lia | reflexivity | reflexivity].
Qed.

Lemma of_list_ok (kvs : list (string * V)) :
  dict_ok (of_list kvs) /\ (kvs <> [] -> 0 < len (of_list kvs)).
Proof.
  unfold of_list, len.
  assert (H : forall d : dict V, dict_ok d ->
            let d' := fold_left (fun d '(k, v) => setitem d k v) kvs d in
            dict_ok d' /\ (kvs <> [] -> 0 < ma_used d')).
  { induction kvs as [|[k v] kvs IH]; intros d Hok; simpl.
    - split; [exact Hok | congruence].
    - destruct (setitem_ok d k v Hok) as [Hok1 Hpos].
      destruct (IH _ Hok1) as [Hok' Hpos']. split; [exact Hok'|].
      intros _. destruct kvs as [|e kvs]; [exact Hpos|].
      apply Hpos'. discriminate. }
  apply H. apply empty_ok.
Qed.


End PyDictFacts.

(** ** MarkdownFormatter: the Info lines of a report *)
Section FoldRLines.
Import Markdown.
Context {A L : Type} (f : list L -> A -> result (list L)) (g : A -> list L).
Hypothesis f_appends : forall b a b', f b a = Ok b' -> b' = b ++ g a.

(** A loop whose every round appends the lines of its item. *)
Lemma foldR_appends l : forall b b',
  foldR f l b = Ok b' -> b' = b ++ concat (map g l).
Proof using f_appends.
  induction l as [|a l IH]; intros b b'; simpl.
  - intros [= <-]. rewrite app_nil_r. reflexivity.
  - destruct (f b a) as [b1|e] eqn:Hf; [|discriminate].
    intros H. apply IH in H. apply f_appends in Hf. subst.
    rewrite <- app_assoc. reflexivity.
Qed.

End FoldRLines.

Section MarkdownFacts.
Import Markdown Outline.

(** [_append_info_section] tests the dictionary of the header, which has
    an item exactly when the header has an entry. *)
Lemma append_info_lines lines h :
  _append_info_section lines h = lines ++ info_lines h.
Proof.
  unfold _append_info_section, info_lines, _mapdump, HeaderOps.to_dict.
  destruct (_kv h) as [|kv kvs] eqn:Hkv.
  - simpl. rewrite app_nil_r. reflexivity.
  - destruct (of_list_ok (kv :: kvs)) as [_ Hpos].
    specialize (Hpos ltac:(discriminate)).
    destruct (Nat.ltb_spec 0 (PyDict.len (PyDict.of_list (kv :: kvs))));
      [reflexivity | lia].
Qed.

Lemma append_heading_line lines level t :
  _append_heading lines level t = lines ++ [heading level t].
Proof. reflexivity. Qed.

Lemma cond_lines_block lines c lines' :
  cond_lines lines c = Ok lines' -> lines' = lines ++ cond_block c.
Proof.
  unfold cond_lines, cond_block, _append_violations, table_lines.
  rewrite append_info_lines, append_heading_line.
  destruct (SectionOps.body c) as [t|]; [|discriminate].
  intros [= <-]. unfold TableOps.column_widths, TableOps.column_names.
  rewrite <- !app_assoc. reflexivity.
Qed.

Lemma section_lines_block lines s lines' :
  section_lines lines s = Ok lines' -> lines' = lines ++ section_block s.
Proof.
  unfold section_lines, section_block.
  rewrite append_info_lines, append_heading_line.
  intros H. apply (foldR_appends cond_lines cond_block cond_lines_block) in H.
  rewrite H, <- !app_assoc. reflexivity.
Qed.

(** C8. Whenever [MarkdownFormatter.format] returns, its text is made of
    the heading of the report, of every section and of every condition
    section, in order, each followed by the Info lines of its header and,
    for a condition section, by the lines of its table.  The Info lines
    of a header are none when its entry list is empty, and exactly the
    line "Info: a=1, b=2" when its entries are a=1 and b=2, added in
    either order; [_append_info_section] adds just these lines.  The
    report of the last part has such headers at all three levels. *)
Theorem markdown_info_line :
  (forall report text,
     format report = Ok text -> text = Py.join nl (report_lines report)) /\
  (forall h, _kv h = [] -> info_lines h = []) /\
  (forall h,
     _kv h = [("a", VInt 1); ("b", VInt 2)] \/
     _kv h = [("b", VInt 2); ("a", VInt 1)] ->
     info_lines h = ["Info: a=1, b=2"]) /\
  (forall lines h, _append_info_section lines h = lines ++ info_lines h) /\
  (let ab := [("a", VInt 1); ("b", VInt 2)] in
   let ba := [("b", VInt 2); ("a", VInt 1)] in
   let table :=
     {| _colnames := ["id"]; _rows := [[VInt 1]]; _width := 1;
        _max_col_widths := [2] |} in
   let cond := mkSection (mkHeader ba "C") (Some table) [] in
   let bare := mkSection (mkHeader [] "D") (Some table) [] in
   let section := mkSection (mkHeader [] "S") None [cond; bare] in
   format (mkReport (mkHeader ab "T") [section; section])
     = Ok (Py.join nl
             ([nl +:+ "# T #" +:+ nl; "Info: a=1, b=2"] ++
              concat (repeat
                [nl +:+ "## S ##" +:+ nl;
                 nl +:+ "### C ###" +:+ nl; "Info: a=1, b=2";
                 nl +:+ "Violations:" +:+ nl; "    id "; "    1  ";
                 nl +:+ "### D ###" +:+ nl;
                 nl +:+ "Violations:" +:+ nl; "    id "; "    1  "] 2)))).
Proof.
  split; [|split; [|split; [|split]]].
  - intros report text. unfold format, report_lines.
    rewrite append_info_lines, append_heading_line.
    destruct (foldR section_lines _ _) as [lines|e] eqn:Hf; [|discriminate].
    intros [= <-].
    apply (foldR_appends section_lines section_block section_lines_block)
      in Hf.
    rewrite Hf. reflexivity.
  - intros h Hkv. unfold info_lines. rewrite Hkv. reflexivity.
  - intros h [Hkv|Hkv]; unfold info_lines, HeaderOps.to_dict; rewrite Hkv;
      reflexivity.
  - exact append_info_lines.
  - vm_compute. reflexivity.
Qed.

End MarkdownFacts.

(** ** MarkdownFormatter: the info line *)
Section MarkdownInfo.
Import Markdown.



End MarkdownInfo.

(** ** MarkdownFormatter: fixed-width lines *)
Section MarkdownLayout.
Import TableOps Spec Usage Layout Markdown.

Lemma str_length_app (s1 s2 : string) :
  String.length (s1 +:+ s2) = String.length s1 + String.length s2.
Proof.
  induction s1 as [|c s1 IH]; simpl; [reflexivity | rewrite IH; reflexivity].
Qed.











End MarkdownLayout.

(** ** MarkdownFormatter.format: sections without body *)
Section FoldR.
Import Markdown.
Context {A B : Type} (f : B -> A -> result B) (P : A -> Prop) (e0 : exn).
Hypothesis P_dec : forall a, P a \/ ~ P a.
Hypothesis f_ok : forall b a, P a -> exists b', f b a = Ok b'.
Hypothesis f_bad : forall b a, ~ P a -> f b a = Raise e0.

(** A loop over items of which the good ones go through and the others
    raise [e0]. *)
Lemma foldR_cases l : forall b,
  (Forall P l -> exists b', foldR f l b = Ok b') /\
  (~ Forall P l -> foldR f l b = Raise e0).
Proof using P_dec f_ok f_bad.
  induction l as [|a l IH]; intros b; simpl.
  - split; [eauto|]. intros H. exfalso. apply H. constructor.
  - destruct (P_dec a) as [Ha|Ha].
    + destruct (f_ok b a Ha) as [b' ->].
      destruct (IH b') as [IH1 IH2]. split.
      * intros H. inversion H; subst. apply IH1. assumption.
      * intros H. apply IH2. intros Hl. apply H. constructor; assumption.
    + rewrite (f_bad b a Ha). split; [|reflexivity].
      intros H. inversion H; subst. contradiction.
Qed.

End FoldR.

Section MarkdownFormat.
Import Layout Markdown.

Lemma body_dec {R} (c : ReportSection R) :
  is_Some (SectionOps.body c) \/ ~ is_Some (SectionOps.body c).
Proof.
  destruct (SectionOps.body c); [left; eauto | right; intros [? ?]; discriminate].
Qed.

Lemma bodies_dec {R} (l : list (ReportSection R)) :
  Forall (fun c => is_Some (SectionOps.body c)) l \/
  ~ Forall (fun c => is_Some (SectionOps.body c)) l.
Proof.
  induction l as [|c l IH]; [left; constructor|].
  destruct (body_dec c) as [Hc|Hc].
  - destruct IH as [IH|IH]; [left; constructor; assumption|].
    right. intros H. inversion H; subst. contradiction.
  - right. intros H. inversion H; subst. contradiction.
Qed.

Lemma md_cond_cases lines (c : ReportSection (list value)) :
  (is_Some (SectionOps.body c) -> exists l', cond_lines lines c = Ok l') /\
  (~ is_Some (SectionOps.body c) -> cond_lines lines c = Raise AttributeError).
Proof.
  unfold cond_lines, _append_violations.
  destruct (SectionOps.body c) as [t|]; split; eauto.
  - intros H. exfalso. apply H. eauto.
  - intros [? ?]. discriminate.
Qed.

Lemma md_section_cases lines (s : ReportSection (list value)) :
  let P := fun c : ReportSection (list value) => is_Some (SectionOps.body c) in
  (Forall P (SectionOps.sections s) -> exists l', section_lines lines s = Ok l') /\
  (~ Forall P (SectionOps.sections s) ->
   section_lines lines s = Raise AttributeError).
Proof.
  intros P. unfold section_lines.
  apply (foldR_cases cond_lines P AttributeError).
  - intros c. apply body_dec.
  - intros b c Hc. apply (proj1 (md_cond_cases b c) Hc).
  - intros b c Hc. apply (proj2 (md_cond_cases b c) Hc).
Qed.

Lemma bodies_dec_report {R} (report : Report R) :
  has_bodies report \/ ~ has_bodies report.
Proof.
  unfold has_bodies. induction (_sections report) as [|s l IH];
    [left; constructor|].
  destruct (bodies_dec (SectionOps.sections s)) as [Hs|Hs].
  - destruct IH as [IH|IH]; [left; constructor; assumption|].
    right. intros H. inversion H; subst. contradiction.
  - right. intros H. inversion H; subst. contradiction.
Qed.

(** The loops of [format]: with a body under every condition section
    they run to the end, and at the first one without they stop with the
    AttributeError of [data.column_names]. *)
Lemma md_format_cases (report : Report (list value)) :
  (has_bodies report -> exists text, format report = Ok text) /\
  (~ has_bodies report -> format report = Raise AttributeError).
Proof.
  unfold format, has_bodies.
  set (lines := _append_info_section _ _).
  destruct (foldR_cases section_lines
              (fun s => Forall (fun c => is_Some (SectionOps.body c))
                               (SectionOps.sections s))
              AttributeError
              (fun s => bodies_dec (SectionOps.sections s))
              (fun b s => proj1 (md_section_cases b s))
              (fun b s => proj2 (md_section_cases b s))
              (_sections report) lines) as [Hok Hbad].
  split.
  - intros H. destruct (Hok H) as [l' ->]. eauto.
  - intros H. rewrite (Hbad H). reflexivity.
Qed.

(** X11. [MarkdownFormatter.format] does not return for a report with a
    condition section without body: it raises, AttributeError when it gets
    as far as the table of that section.  So a text that [format] returns
    is that of a report with a body under every condition section. *)
Theorem markdown_format_needs_bodies (report : Report (list value)) :
  ~ has_bodies report ->
  (exists e, format report = Raise e) /\
  (forall text, format report <> Ok text).
Proof.
  intros H. rewrite (proj2 (md_format_cases report) H).
  split; [eauto | discriminate].
Qed.

Lemma markdown_format_needs_bodies_witness :
  let report : Report (list value) :=
    mkReport (mkHeader [] "T")
      [mkSection (mkHeader [] "S") None [mkSection (mkHeader [] "C") None []]] in
  (exists e, format report = Raise e) /\
  (forall text, format report <> Ok text).
Proof.
  intros report. apply markdown_format_needs_bodies.
  unfold has_bodies. intros H. inversion H as [|? ? Hs _]; subst.
  inversion Hs as [|? ? [? Hc] _]; subst. discriminate.
Defined.

End MarkdownFormat.

(** ** HTMLFormatter.format: what it allocates *)
Section FoldMRun.
Import Spec Rendering.
Context (σ : store) (idcol : Z) {A B : Type}.
Context (f : B -> A -> St B) (g : A -> list loc) (P : A -> Prop).
Hypothesis f_run : forall b a acc,
  P a -> Forall (row_ready σ idcol) (g a) ->
  exists ext b',
    f b a (σ ++ acc) = (σ ++ acc ++ ext, Ok b') /\
    Forall2 (copy_of σ idcol) (g a) ext.

(** A loop of which every turn returns and adds the copies of its rows
    returns and adds the copies of all the rows. *)
Lemma foldM_run l : forall b acc,
  Forall P l -> Forall (row_ready σ idcol) (flat_map g l) ->
  exists ext b',
    foldM f l b (σ ++ acc) = (σ ++ acc ++ ext, Ok b') /\
    Forall2 (copy_of σ idcol) (flat_map g l) ext.
Proof using f_run.
  induction l as [|a l IH]; intros b acc HP Hr; simpl.
  - exists [], b. rewrite app_nil_r. split; [reflexivity | constructor].
  - simpl in Hr. apply Forall_app in Hr as [Hra Hrl].
    inversion HP as [|? ? Ha HPl]; subst.
    destruct (f_run b a acc Ha Hra) as (ext1 & b1 & Hf & Hc1).
    unfold mbind, St_bind. rewrite Hf.
    destruct (IH b1 (acc ++ ext1) HPl Hrl) as (ext2 & b2 & Hl & Hc2).
    rewrite !app_assoc in *. rewrite Hl.
    exists (ext1 ++ ext2), b2. rewrite !app_assoc.
    split; [reflexivity | apply Forall2_app; assumption].
Qed.

End FoldMRun.

Section HTMLRun.
Import HTML Spec Layout Rendering.

Lemma row_body_ready σ idcol st r acc :
  True -> Forall (row_ready σ idcol) [r] ->
  exists ext st',
    row_body idcol st r (σ ++ acc) = (σ ++ acc ++ ext, Ok st') /\
    Forall2 (copy_of σ idcol) [r] ext.
Proof.
  intros _ Hr. inversion Hr as [|? ? (row & n & Hrow & Hn) _]; subst.
  destruct st as [[prev i] text].
  destruct (index_lookup _ _ _ Hn) as [key Hkey].
  assert (Hrow' : (σ ++ acc) !! r = Some row)
    by (apply lookup_app_l_Some; exact Hrow).
  rewrite (row_body_run _ _ _ _ _ _ _ _ _ Hrow' Hn Hkey).
  destruct (Py.truthy prev && Py.eq key prev); cbv zeta;
    rewrite <- app_assoc; eexists _, _; (split; [reflexivity|]);
    constructor; try constructor; exists row, n; auto.
Qed.

Lemma flat_map_singleton {A} (l : list A) : flat_map (fun a => [a]) l = l.
Proof.
  induction l as [|a l IH]; simpl; [reflexivity | rewrite IH; reflexivity].
Qed.

Lemma table_lines_ready σ idcol (c : ReportSection loc) acc :
  is_Some (SectionOps.body c) -> Forall (row_ready σ idcol) (cond_rows c) ->
  exists ext text,
    table_lines idcol (SectionOps.body c) (σ ++ acc) = (σ ++ acc ++ ext, Ok text) /\
    Forall2 (copy_of σ idcol) (cond_rows c) ext.
Proof.
  intros [t Ht] Hr. unfold cond_rows in *. rewrite Ht in *.
  unfold table_lines.
  destruct (foldM_run σ idcol (row_body idcol) (fun r => [r]) (fun _ => True)
              (fun st r acc => row_body_ready σ idcol st r acc)
              (_rows t)
              (VNone, 0, ["<table>"; "<tr>"] ++
                 map (tag "th") (TableOps.column_names t) ++ ["</tr>"])
              acc) as (ext & [[prev i] text] & Hf & Hc).
  - apply Forall_forall. auto.
  - rewrite flat_map_singleton. exact Hr.
  - rewrite flat_map_singleton in Hc.
    unfold mbind, St_bind. rewrite Hf. eexists _, _. split; [reflexivity|exact Hc].
Qed.

Lemma cond_lines_ready σ idcol text (c : ReportSection loc) acc :
  is_Some (SectionOps.body c) -> Forall (row_ready σ idcol) (cond_rows c) ->
  exists ext text',
    cond_lines idcol text c (σ ++ acc) = (σ ++ acc ++ ext, Ok text') /\
    Forall2 (copy_of σ idcol) (cond_rows c) ext.
Proof.
  intros Hb Hr.
  destruct (table_lines_ready σ idcol c acc Hb Hr) as (ext & tl & Hf & Hc).
  unfold cond_lines, mbind, St_bind. rewrite Hf.
  eexists _, _. split; [reflexivity | exact Hc].
Qed.

Lemma section_lines_ready σ idcol text (s : ReportSection loc) acc :
  Forall (fun c => is_Some (SectionOps.body c)) (SectionOps.sections s) ->
  Forall (row_ready σ idcol) (section_rows s) ->
  exists ext text',
    section_lines idcol text s (σ ++ acc) = (σ ++ acc ++ ext, Ok text') /\
    Forall2 (copy_of σ idcol) (section_rows s) ext.
Proof.
  intros Hb Hr. unfold section_lines, section_rows in *.
  apply (foldM_run σ idcol (cond_lines idcol) cond_rows
           (fun c => is_Some (SectionOps.body c))); try assumption.
  intros b c acc'. apply cond_lines_ready.
Qed.

(** The run of [format] over scalar cells, with a body under every
    condition section and every row to be rendered in the store with the
    identifier column in it. *)
Lemma html_format_run (f : HTMLFormatter) (report : Report loc)
    (σ : store) :
  has_bodies report ->
  Forall (row_ready σ (_idcol f)) (report_rows report) ->
  exists copies text,
    HTML.format f report σ = (σ ++ copies, Ok text) /\
    Forall2 (copy_of σ (_idcol f)) (report_rows report) copies.
Proof.
  intros Hb Hr. unfold HTML.format.
  match goal with
  | |- context [foldM _ _ ?text0] =>
      destruct (foldM_run σ (_idcol f) (section_lines (_idcol f)) section_rows
                  (fun s => Forall (fun c => is_Some (SectionOps.body c))
                                   (SectionOps.sections s))
                  (fun b s acc => section_lines_ready σ (_idcol f) b s acc)
                  (_sections report) text0 [] Hb Hr)
        as (ext & text' & Hf & Hc)
  end.
  rewrite app_nil_r in Hf. change ([] ++ ext) with ext in Hf.
  unfold mbind, St_bind. rewrite Hf.
  eexists _, _. split; [reflexivity | exact Hc].
Qed.

(** X12. What a call of [HTMLFormatter.format] that returns has
    allocated.  When every row that is to be rendered is in the store
    with the identifier column in it, the store after the call is the
    store before followed by one new object for every rendered row, in
    order, and nothing else: the copy of the row, with its identifier or
    with the empty string in its place. *)
Theorem html_format_allocates_copies (f : HTMLFormatter)
    (report : Report loc) (σ σ' : store) (text : string) :
  has_bodies report ->
  Forall (row_ready σ (_idcol f)) (report_rows report) ->
  HTML.format f report σ = (σ', Ok text) ->
  exists copies,
    σ' = σ ++ copies /\
    Forall2 (copy_of σ (_idcol f)) (report_rows report) copies.
Proof.
  intros Hb Hr Hf.
  destruct (html_format_run f report σ Hb Hr) as (copies & text' & Hf' & Hc).
  rewrite Hf' in Hf. injection Hf as <- _. eauto.
Qed.

Lemma html_format_allocates_copies_witness :
  let σ := [[VStr "A"; VInt 1]; [VStr "A"; VInt 2]] in
  let t := {| _colnames := ["id"; "v"]; _rows := [0; 1]; _width := 2;
              _max_col_widths := [2; 1] |} in
  let report :=
    mkReport (mkHeader [] "T")
      [mkSection (mkHeader [] "S") None [mkSection (mkHeader [] "C") (Some t) []]] in
  let f := mkHTMLFormatter Markdown.nl 0 None in
  exists copies,
    fst (HTML.format f report σ) = σ ++ copies /\
    Forall2 (copy_of σ 0) (report_rows report) copies.
Proof.
  intros σ t report f.
  destruct (HTML.format f report σ) as [σ' [text|e]] eqn:Hf;
    [|vm_compute in Hf; discriminate].
  destruct (html_format_allocates_copies f report σ σ' text) as (copies & -> & Hc).
  - repeat constructor. eexists. reflexivity.
  - repeat constructor; eexists _, _; split; reflexivity.
  - exact Hf.
  - exists copies. split; [reflexivity | exact Hc].
Defined.

End HTMLRun.

(** ** HTMLFormatter.format: sections without a table *)
Section FoldMRaises.
Context {A B : Type} (f : B -> A -> St B).

(** A loop with a turn that always raises does not return. *)
Lemma foldM_raises l :
  Exists (fun a => forall b σ, exists e, snd (f b a σ) = Raise e) l ->
  forall b σ, exists e, snd (foldM f l b σ) = Raise e.
Proof.
  induction 1 as [a l Ha|a l _ IH]; intros b σ; simpl;
    unfold mbind, St_bind.
  - destruct (Ha b σ) as [e He].
    destruct (f b a σ) as [σ' [b'|e']]; simpl in He; [discriminate|].
    exists e'. reflexivity.
  - destruct (f b a σ) as [σ' [b'|e']]; [apply IH|].
    exists e'. reflexivity.
Qed.

End FoldMRaises.

Section HTMLBodies.
Import HTML Layout.

(** X13. [HTMLFormatter.format] does not return for a report with a
    condition section without body: it raises, AttributeError when it gets
    as far as that section. *)
Theorem html_format_needs_bodies (f : HTMLFormatter) (report : Report loc)
    (σ : store) :
  ~ has_bodies report ->
  exists e, snd (HTML.format f report σ) = Raise e.
Proof.
  intros Hb. unfold has_bodies in Hb.
  apply not_Forall_Exists in Hb; [|intros s; apply Forall_dec; intros c; apply _].
  assert (Hs : Exists (fun s => forall text σ, exists e,
                         snd (section_lines (_idcol f) text s σ) = Raise e)
                      (_sections report)).
  { eapply Exists_impl; [exact Hb|]. intros s Hs text σ0. simpl in Hs.
    apply not_Forall_Exists in Hs; [|intros c; apply _].
    unfold section_lines. apply foldM_raises.
    eapply Exists_impl; [exact Hs|]. intros c Hc text' σ1. simpl in Hc.
    unfold cond_lines. destruct (SectionOps.body c) as [t|] eqn:Hbody.
    - exfalso. apply Hc. eauto.
    - exists AttributeError. reflexivity. }
  unfold HTML.format, mbind, St_bind.
  match goal with
  | |- context [foldM ?g ?l ?b ?s] =>
      destruct (foldM_raises g l Hs b s) as [e He];
      destruct (foldM g l b s) as [σ' [text|e']]; simpl in He;
        [discriminate|]
  end.
  eexists. reflexivity.
Qed.

Lemma html_format_needs_bodies_witness :
  let report : Report loc :=
    mkReport (mkHeader [] "T")
      [mkSection (mkHeader [] "S") None [mkSection (mkHeader [] "C") None []]] in
  exists e, snd (HTML.format (mkHTMLFormatter Markdown.nl 0 None) report []) = Raise e.
Proof.
  intros report. apply html_format_needs_bodies.
  unfold has_bodies. intros H. inversion H as [|? ? Hs _]; subst.
  inversion Hs as [|? ? [? Hc] _]; subst. discriminate.
Defined.

End HTMLBodies.

(** ** What the formatters leave out *)
Section Pruned.
Import Rendering.

Lemma foldM_map_run {A A' B} (f : B -> A' -> St B) (g : A -> A')
    (f' : B -> A -> St B) l :
  (forall b a σ, f b (g a) σ = f' b a σ) ->
  forall b σ, foldM f (map g l) b σ = foldM f' l b σ.
Proof.
  intros Hf. induction l as [|a l IH]; intros b σ; simpl; [reflexivity|].
  unfold mbind, St_bind. rewrite Hf.
  destruct (f' b a σ) as [σ' [b'|e]]; [apply IH | reflexivity].
Qed.

Lemma foldR_map_run {A A' B} (f : B -> A' -> result B) (g : A -> A')
    (f' : B -> A -> result B) l :
  (forall b a, f b (g a) = f' b a) ->
  forall b, Markdown.foldR f (map g l) b = Markdown.foldR f' l b.
Proof.
  intros Hf. induction l as [|a l IH]; intros b; simpl; [reflexivity|].
  rewrite Hf. destruct (f' b a); [apply IH | reflexivity].
Qed.

(** X14. The three formatters go two levels down and no further, and
    show no body of a section of the report itself: each gives for a
    report what it gives for the report without those bodies and without
    the sections below the condition sections. *)
Theorem formatters_render_two_levels :
  (forall (f : HTML.HTMLFormatter) (report : Report loc) (σ : store),
     HTML.format f (prune report) σ = HTML.format f report σ) /\
  (forall report : Report (list value),
     Markdown.format (prune report) = Markdown.format report) /\
  (forall report : Report (list value),
     JSON.report_obj (prune report) = JSON.report_obj report).
Proof.
  split; [|split].
  - intros f report σ. unfold HTML.format, prune. simpl.
    unfold mbind, St_bind.
    rewrite (foldM_map_run _ prune_section (HTML.section_lines (HTML._idcol f)));
      [reflexivity|].
    intros text s σ0. unfold HTML.section_lines, prune_section. simpl.
    apply foldM_map_run. intros text' c σ1. reflexivity.
  - intros report. unfold Markdown.format, prune. simpl.
    rewrite (foldR_map_run _ prune_section Markdown.section_lines);
      [reflexivity|].
    intros lines s. unfold Markdown.section_lines, prune_section. simpl.
    apply foldR_map_run. intros lines' c. reflexivity.
  - intros report. unfold JSON.report_obj, prune. simpl.
    rewrite map_map.
    assert (H : forall l : list (ReportSection (list value)),
              map (fun x => JSON.dict_ [
                     ("title", OVal (VStr (title (SectionOps.header (prune_section x)))));
                     ("info", OHeader (SectionOps.header (prune_section x)));
                     ("conditions",
                       OList (map (fun cs => JSON.dict_ [
                                ("title", OVal (VStr (title (SectionOps.header cs))));
                                ("info", OHeader (SectionOps.header cs));
                                ("violations",
                                  match SectionOps.body cs with
                                  | Some t => OTable t
                                  | None => OVal VNone
                                  end)])
                              (SectionOps.sections (prune_section x))))]) l =
              map (fun x => JSON.dict_ [
                     ("title", OVal (VStr (title (SectionOps.header x))));
                     ("info", OHeader (SectionOps.header x));
                     ("conditions",
                       OList (map (fun cs => JSON.dict_ [
                                ("title", OVal (VStr (title (SectionOps.header cs))));
                                ("info", OHeader (SectionOps.header cs));
                                ("violations",
                                  match SectionOps.body cs with
                                  | Some t => OTable t
                                  | None => OVal VNone
                                  end)])
                              (SectionOps.sections x)))]) l).
    { intros l. apply map_ext. intros x.
      unfold prune_section. simpl. rewrite map_map. reflexivity. }
    rewrite H. reflexivity.
Qed.

End Pruned.

(** ** ReportJSONEncoder *)
Section JSONDocument.
Import JSON Document.
Variable mongo_default : pyobj -> result pyobj.
#[local] Abbreviation default := (ReportJSONEncoder_default mongo_default).

Lemma encode_OList depth l :
  encode default depth (OList l) = encode_list (encode default depth) l [].
Proof.
  assert (H : exists n, n = depth) by eauto. destruct H as [n Hn].
  rewrite <- Hn.
  transitivity
    ((fix enc_list (l0 : list pyobj) (acc : list json) {struct l0}
        : result json :=
        match l0 with
        | [] => Ok (JArr (rev acc))
        | x :: l' =>
            match encode default n x with
            | Ok j => enc_list l' (j :: acc)
            | Raise e => Raise e
            end
        end) l []).
  - rewrite Hn. destruct depth; reflexivity.
  - generalize (@nil json). clear Hn.
    induction l as [|x l IH]; intros acc; [reflexivity|].
    cbn [encode_list]. destruct (encode default n x); [apply IH | reflexivity].
Qed.

Lemma encode_ODict depth items :
  encode default depth (ODict items) = encode_items (encode default depth) items [].
Proof.
  assert (H : exists n, n = depth) by eauto. destruct H as [n Hn].
  rewrite <- Hn.
  transitivity
    ((fix enc_items (l : list (string * pyobj)) (acc : list (string * json))
        {struct l} : result json :=
        match l with
        | [] => Ok (JObj (rev acc))
        | (k, x) :: l' =>
            if utf8 k
            then match encode default n x with
                 | Ok j => enc_items l' ((k, j) :: acc)
                 | Raise e => Raise e
                 end
            else Raise UnicodeDecodeError
        end) items []).
  - rewrite Hn. destruct depth; reflexivity.
  - generalize (@nil (string * json)). clear Hn.
    induction items as [|[k x] l IH]; intros acc; [reflexivity|].
    cbn [encode_items]. destruct (utf8 k); [|reflexivity].
    destruct (encode default n x); [apply IH | reflexivity].
Qed.

Lemma encode_OVal depth v : encode default depth (OVal v) = of_value v.
Proof. destruct depth; reflexivity. Qed.

(** When the encoder takes a scalar, the result is its JSON value. *)
Lemma of_value_doc v j : of_value v = Ok j -> j = scalar_doc v.
Proof.
  destruct v as [|b|n|s]; simpl; try (intros [= <-]; reflexivity).
  destruct (utf8 s); [intros [= <-]; reflexivity | discriminate].
Qed.

(** A list that is encoded has every item encoded, in order. *)
Lemma encode_list_items enc l : forall acc j,
  encode_list enc l acc = Ok j ->
  exists js, j = JArr (rev acc ++ js) /\
             Forall2 (fun o j => enc o = Ok j) l js.
Proof.
  induction l as [|o l IH]; intros acc j; simpl.
  - intros [= <-]. exists []. rewrite app_nil_r. split; [reflexivity|constructor].
  - destruct (enc o) as [jo|e] eqn:Ho; [|discriminate].
    intros H. apply IH in H as (js & -> & Hjs).
    exists (jo :: js). split.
    + simpl. rewrite <- app_assoc. reflexivity.
    + constructor; assumption.
Qed.

(** A dict that is encoded has every value encoded under its key, in
    order. *)
Lemma encode_items_members enc l : forall acc j,
  encode_items enc l acc = Ok j ->
  exists js, j = JObj (rev acc ++ js) /\
             Forall2 (fun kx kj => fst kx = fst kj /\ enc (snd kx) = Ok (snd kj))
                     l js.
Proof.
  induction l as [|[k x] l IH]; intros acc j; simpl.
  - intros [= <-]. exists []. rewrite app_nil_r. split; [reflexivity|constructor].
  - destruct (utf8 k); [|discriminate].
    destruct (enc x) as [jx|e] eqn:Hx; [|discriminate].
    intros H. apply IH in H as (js & -> & Hjs).
    exists ((k, jx) :: js). split.
    + simpl. rewrite <- app_assoc. reflexivity.
    + constructor; [split; [reflexivity | exact Hx] | exact Hjs].
Qed.

(** A dict of values is encoded member by member. *)
Lemma encode_of_dict depth (d : PyDict.dict value) j :
  encode default depth (of_dict d) = Ok j ->
  j = JObj (map (fun '(k, v) => (k, scalar_doc v)) (PyDict.items d)).
Proof using Type.
  unfold of_dict. rewrite encode_ODict. intros H.
  apply encode_items_members in H as (js & -> & Hjs). simpl. f_equal.
  revert js Hjs. induction (PyDict.items d) as [|[k v] l IH];
    intros js Hjs; inversion Hjs as [|? [k' jv] ? ? [Hk Hv] Hjs']; subst;
    simpl; [reflexivity|].
  cbn [fst snd] in Hk, Hv. subst k'. rewrite encode_OVal in Hv.
  apply of_value_doc in Hv. subst jv. f_equal. apply IH. exact Hjs'.
Qed.

Lemma encode_header depth h j :
  encode default (S depth) (OHeader h) = Ok j -> j = header_doc h.
Proof using Type.
  cbn [encode ReportJSONEncoder_default].
  apply (encode_of_dict depth).
Qed.

Lemma values_of_length (t : Table (list value)) rows : forall ds,
  TableOps.values_of t rows = Ok ds -> length ds = length rows.
Proof.
  induction rows as [|r rows IH]; intros ds; simpl.
  - intros [= <-]. reflexivity.
  - destruct (TableOps.row_dict t r); [|discriminate].
    destruct (TableOps.values_of t rows) as [ds'|]; [|discriminate].
    intros [= <-]. simpl. f_equal. apply IH. reflexivity.
Qed.

Lemma encode_table depth (t : Table (list value)) j :
  encode default (S depth) (OTable t) = Ok j ->
  exists vs, j = JArr vs /\ length vs = TableOps.nrow t.
Proof using Type.
  cbn [encode ReportJSONEncoder_default].
  destruct (TableOps.values t) as [ds|e] eqn:Hds; [|discriminate].
  change (encode default depth (OList (map of_dict ds)) = Ok j ->
          exists vs, j = JArr vs /\ length vs = TableOps.nrow t).
  rewrite encode_OList. intros H.
  apply encode_list_items in H as (js & -> & Hjs).
  exists js. split; [reflexivity|].
  apply Forall2_length in Hjs. rewrite length_map in Hjs.
  apply values_of_length in Hds. unfold TableOps.nrow. congruence.
Qed.

Lemma encode_cond depth (c : ReportSection (list value)) j :
  encode default (S depth)
    (dict_ [("title", OVal (VStr (title (SectionOps.header c))));
            ("info", OHeader (SectionOps.header c));
            ("violations",
              match SectionOps.body c with
              | Some t => OTable t
              | None => OVal VNone
              end)]) = Ok j ->
  cond_doc c j.
Proof using Type.
  change (dict_ ?l) with
    (ODict [("info", OHeader (SectionOps.header c));
            ("violations", match SectionOps.body c with
                           | Some t => OTable t
                           | None => OVal VNone
                           end);
            ("title", OVal (VStr (title (SectionOps.header c))))]).
  rewrite encode_ODict. intros H.
  apply encode_items_members in H as (js & -> & Hjs).
  inversion Hjs as [|? [k1 j1] ? ? [Hk1 H1] Hjs1]; subst.
  inversion Hjs1 as [|? [k2 j2] ? ? [Hk2 H2] Hjs2]; subst.
  inversion Hjs2 as [|? [k3 j3] ? ? [Hk3 H3] Hjs3]; subst.
  inversion Hjs3; subst.
  cbn [fst snd] in Hk1, Hk2, Hk3, H1, H2, H3. subst k1 k2 k3.
  apply encode_header in H1. subst j1.
  rewrite encode_OVal in H3. apply of_value_doc in H3. subst j3.
  unfold cond_doc.
  split; [reflexivity|]. split; [reflexivity|].
  destruct (SectionOps.body c) as [t|].
  - apply encode_table in H2 as (vs & -> & Hlen). eauto.
  - rewrite encode_OVal in H2. apply of_value_doc in H2. subst j2. reflexivity.
Qed.

Lemma encode_conds depth (conds : list (ReportSection (list value))) : forall js,
  Forall2 (fun o j => encode default (S depth) o = Ok j)
    (map (fun cs =>
            dict_ [("title", OVal (VStr (title (SectionOps.header cs))));
                   ("info", OHeader (SectionOps.header cs));
                   ("violations",
                     match SectionOps.body cs with
                     | Some t => OTable t
                     | None => OVal VNone
                     end)]) conds) js ->
  Forall2 cond_doc conds js.
Proof using Type.
  induction conds as [|c conds IH]; intros js H; inversion H; subst;
    constructor.
  - eapply encode_cond. eassumption.
  - apply IH. assumption.
Qed.

Lemma encode_section depth (s : ReportSection (list value)) j :
  encode default (S depth)
    (dict_ [("title", OVal (VStr (title (SectionOps.header s))));
            ("info", OHeader (SectionOps.header s));
            ("conditions",
              OList (map (fun cs =>
                dict_ [("title", OVal (VStr (title (SectionOps.header cs))));
                       ("info", OHeader (SectionOps.header cs));
                       ("violations",
                         match SectionOps.body cs with
                         | Some t => OTable t
                         | None => OVal VNone
                         end)])
                (SectionOps.sections s)))]) = Ok j ->
  section_doc s j.
Proof using Type.
  match goal with
  | |- context [dict_ [_; _; ("conditions", ?x)]] =>
      change (dict_ [("title", OVal (VStr (title (SectionOps.header s))));
                     ("info", OHeader (SectionOps.header s));
                     ("conditions", x)])
        with (ODict [("info", OHeader (SectionOps.header s));
                     ("conditions", x);
                     ("title", OVal (VStr (title (SectionOps.header s))))])
  end.
  rewrite encode_ODict. intros H.
  apply encode_items_members in H as (js & -> & Hjs).
  inversion Hjs as [|? [k1 j1] ? ? [Hk1 H1] Hjs1]; subst.
  inversion Hjs1 as [|? [k2 j2] ? ? [Hk2 H2] Hjs2]; subst.
  inversion Hjs2 as [|? [k3 j3] ? ? [Hk3 H3] Hjs3]; subst.
  inversion Hjs3; subst.
  cbn [fst snd] in Hk1, Hk2, Hk3, H1, H2, H3. subst k1 k2 k3.
  apply encode_header in H1. subst j1.
  rewrite encode_OVal in H3. apply of_value_doc in H3. subst j3.
  rewrite encode_OList in H2.
  apply encode_list_items in H2 as (conds & -> & Hconds).
  apply encode_conds in Hconds.
  unfold section_doc.
  split; [reflexivity|]. split; [reflexivity|].
  exists conds. split; [reflexivity | exact Hconds].
Qed.

Lemma encode_sections depth (sections : list (ReportSection (list value))) :
  forall js,
  Forall2 (fun o j => encode default (S depth) o = Ok j)
    (map (fun s =>
      dict_ [("title", OVal (VStr (title (SectionOps.header s))));
             ("info", OHeader (SectionOps.header s));
             ("conditions",
               OList (map (fun cs =>
                 dict_ [("title", OVal (VStr (title (SectionOps.header cs))));
                        ("info", OHeader (SectionOps.header cs));
                        ("violations",
                          match SectionOps.body cs with
                          | Some t => OTable t
                          | None => OVal VNone
                          end)])
                 (SectionOps.sections s)))]) sections) js ->
  Forall2 section_doc sections js.
Proof using Type.
  induction sections as [|s sections IH]; intros js H; inversion H; subst;
    constructor.
  - eapply encode_section. eassumption.
  - apply IH. assumption.
Qed.

(** X15. With [ReportJSONEncoder] as the encoder class, whatever its base
    class does, a document that [json.dumps] returns for the object that
    [JSONFormatter.format] builds is the document of the report: title
    and header of the report, and for every section its title, header and
    condition sections, each with title, header and one violation for
    every row of its table (null without table).  (The call raises on a
    byte string that is not UTF-8 and on a table out of shape.) *)
Theorem report_encoder_gives_document (report : Report (list value))
    (doc : json) :
  dumps default (report_obj report) = Ok doc -> report_doc report doc.
Proof using Type.
  unfold dumps, report_obj, recursion_limit.
  match goal with
  | |- context [dict_ [_; _; ("sections", ?x)]] =>
      change (dict_ [("title", OVal (VStr (title (_hdr report))));
                     ("info", OHeader (_hdr report));
                     ("sections", x)])
        with (ODict [("info", OHeader (_hdr report));
                     ("sections", x);
                     ("title", OVal (VStr (title (_hdr report))))])
  end.
  rewrite encode_ODict. intros H.
  apply encode_items_members in H as (js & -> & Hjs).
  inversion Hjs as [|? [k1 j1] ? ? [Hk1 H1] Hjs1]; subst.
  inversion Hjs1 as [|? [k2 j2] ? ? [Hk2 H2] Hjs2]; subst.
  inversion Hjs2 as [|? [k3 j3] ? ? [Hk3 H3] Hjs3]; subst.
  inversion Hjs3; subst.
  cbn [fst snd] in Hk1, Hk2, Hk3, H1, H2, H3. subst k1 k2 k3.
  apply encode_header in H1. subst j1.
  rewrite encode_OVal in H3. apply of_value_doc in H3. subst j3.
  rewrite encode_OList in H2.
  apply encode_list_items in H2 as (secs & -> & Hsecs).
  apply encode_sections in Hsecs.
  unfold report_doc.
  split; [reflexivity|]. split; [reflexivity|].
  exists secs. split; [reflexivity | exact Hsecs].
Qed.

End JSONDocument.

Section JSONDocumentWitness.
Import JSON Document.

Lemma report_encoder_gives_document_witness :
  let t := fst (TableOps.add_all [[VInt 1; VStr "x"]; [VInt 2; VStr "y"]]
                  (TableOps.init ["id"; "v"])) in
  let report :=
    mkReport (mkHeader [("a", VInt 1)] "T")
      [mkSection (mkHeader [] "S") None
         [mkSection (mkHeader [] "C") (Some t) []]] in
  exists doc,
    dumps (ReportJSONEncoder_default MongoJSONEncoder_default)
          (report_obj report) = Ok doc /\
    report_doc report doc.
Proof.
  intros t report.
  destruct (dumps (ReportJSONEncoder_default MongoJSONEncoder_default)
                  (report_obj report)) as [doc|e] eqn:Hd;
    [|vm_compute in Hd; discriminate].
  exists doc. split; [reflexivity|].
  exact (report_encoder_gives_document MongoJSONEncoder_default report doc Hd).
Defined.

End JSONDocumentWitness.

(** ** Emailer.send: the format and the exchange *)
Section EmailerUsage.
Import EmailerOps Trace.

Lemma split_none c s : Py.count c s = 0 -> Py.split c s = [s].
Proof.
  induction s as [|a s IH]; simpl; [reflexivity|].
  destruct (Ascii.eqb a c); [discriminate|].
  intros H. rewrite IH by exact H. reflexivity.
Qed.

Lemma split_at c a b :
  Py.count c a = 0 -> Py.split c (a +:+ String c b) = a :: Py.split c b.
Proof.
  induction a as [|x a IH]; simpl.
  - rewrite Ascii.eqb_refl. reflexivity.
  - destruct (Ascii.eqb x c); [discriminate|].
    intros H. rewrite IH by exact H. reflexivity.
Qed.

(** X16. The main type of the format plays no part: for "main/sub" [send]
    builds the text message of subtype "sub" with the three headers and
    runs the exchange with it, whatever "main" is. *)
Theorem send_ignores_main_type (smtp : SMTP) (e : Emailer)
    (text main_fmt sub_fmt : string) :
  Py.count "/" main_fmt = 0 -> Py.count "/" sub_fmt = 0 ->
  send smtp e text (main_fmt +:+ "/" +:+ sub_fmt) =
    (LogInfo (connection e)
       :: fst (try_send smtp e (connection e) (message e text sub_fmt)),
     Ok (snd (try_send smtp e (connection e) (message e text sub_fmt)))) /\
  send smtp e text (main_fmt +:+ "/" +:+ sub_fmt) =
    send smtp e text ("text/" +:+ sub_fmt).
Proof.
  intros Hm Hs.
  assert (H : forall m, Py.count "/" m = 0 ->
            send smtp e text (m +:+ "/" +:+ sub_fmt) =
            (LogInfo (connection e)
               :: fst (try_send smtp e (connection e) (message e text sub_fmt)),
             Ok (snd (try_send smtp e (connection e) (message e text sub_fmt))))).
  { intros m Hc. unfold send.
    change (m +:+ "/" +:+ sub_fmt) with (m +:+ String "/" sub_fmt).
    rewrite (split_at _ _ _ Hc), (split_none _ _ Hs).
    destruct (try_send _ _ _ _). reflexivity. }
  split; [apply H; exact Hm|].
  rewrite (H main_fmt Hm). symmetry. apply (H "text"). reflexivity.
Qed.

Lemma send_ignores_main_type_witness :
  let e := mkEmailer "me@localhost" ["a@x"] "Report" "localhost" None in
  let up := mkSMTP (fun _ => None) (fun _ _ _ => None) None in
  send up e "hi" "image/html" = send up e "hi" "text/html".
Proof.
  intros e up.
  exact (proj2 (send_ignores_main_type up e "hi" "image" "html" eq_refl eq_refl)).
Defined.

(** X17. The exchange of [send] is tried once and in order.  No trace has
    more than one connection or more than one message handed over; a
    message is handed over only after the connection was made; and a
    result above 0 means that the whole exchange went through with
    nothing logged as an error.  The converse fails: when closing the
    connection raises, the message was handed over and the result is 0. *)
Theorem send_exchange_discipline (smtp : SMTP) (e : Emailer) (text fmt : string) :
  let events := fst (send smtp e text fmt) in
  length (List.filter is_connect events) <= 1 /\
  length (List.filter is_sendmail events) <= 1 /\
  (forall s r m, Sendmail s r m ∈ events ->
     on_connect smtp (connection e) = None /\ Connect (connection e) ∈ events) /\
  (forall n, snd (send smtp e text fmt) = Ok n -> 0 < n ->
     exists sub_fmt,
       events = [LogInfo (connection e); Connect (connection e);
                 Sendmail (_sender e) (_recipients e) (message e text sub_fmt);
                 Quit] /\
       n = length (_recipients e)) /\
  (forall err, Py.count "/" fmt = 1 ->
     on_connect smtp (connection e) = None ->
     (forall m, on_sendmail smtp (_sender e) (_recipients e) m = None) ->
     on_quit smtp = Some err ->
     snd (send smtp e text fmt) = Ok 0 /\
     exists m, Sendmail (_sender e) (_recipients e) m ∈ events).
Proof.
  assert (Hnot : forall s r m (l : list event),
            Forall (fun ev => is_sendmail ev = false) l -> Sendmail s r m ∉ l).
  { intros s r m l Hl Hin. rewrite Forall_forall in Hl.
    specialize (Hl _ Hin). discriminate. }
  unfold send.
  pose proof (split_length "/" fmt) as Hlen.
  destruct (Py.split "/" fmt) as [|main_fmt [|sub_fmt [|x l]]] eqn:Hsplit;
    simpl in Hlen.
  1,2,4: (simpl; split; [lia|]; split; [lia|]; split;
          [intros s r m H; inversion H|]; split;
          [intros n H; discriminate | intros err Hc; lia]).
  unfold try_send.
  destruct (on_connect smtp (connection e)) as [err1|] eqn:Hconn.
  { simpl. split; [lia|]. split; [lia|]. split; [|split].
    - intros s r m H. exfalso. revert H. apply Hnot. repeat constructor.
    - intros n [= <-] Hn. lia.
    - intros; discriminate. }
  destruct (on_sendmail smtp _ _ _) as [err2|] eqn:Hsend.
  { simpl. split; [lia|]. split; [lia|]. split; [|split].
    - intros s r m _. split; [reflexivity | right; left].
    - intros n [= <-] Hn. lia.
    - intros err _ _ Hall _. rewrite Hall in Hsend. discriminate. }
  destruct (on_quit smtp) as [err3|] eqn:Hquit.
  { simpl. split; [lia|]. split; [lia|]. split; [|split].
    - intros s r m _. split; [reflexivity | right; left].
    - intros n [= <-] Hn. lia.
    - intros err _ _ _ _. split; [reflexivity|].
      eexists. right. right. left. }
  simpl. split; [lia|]. split; [lia|]. split; [|split].
  - intros s r m _. split; [reflexivity | right; left].
  - intros n [= <-] Hn. exists sub_fmt. split; reflexivity.
  - intros; discriminate.
Qed.

End EmailerUsage.

(** ** css_minify *)
Section CSSFacts.
Import CSS.

Lemma count_app c s1 s2 :
  Py.count c (s1 +:+ s2) = Py.count c s1 + Py.count c s2.
Proof.
  induction s1 as [|a s1 IH]; simpl; [reflexivity | rewrite IH; lia].
Qed.

Lemma replace_char_count old new s :
  old <> new -> Py.count old (replace_char old new s) = 0.
Proof.
  intros Hne. induction s as [|c s IH]; simpl; [reflexivity|].
  rewrite IH. destruct (Ascii.eqb_spec c old) as [->|Hc].
  - destruct (Ascii.eqb_spec new old); [congruence | reflexivity].
  - destruct (Ascii.eqb_spec c old); [congruence | reflexivity].
Qed.

Lemma replace_char_length old new s :
  String.length (replace_char old new s) = String.length s.
Proof.
  induction s as [|c s IH]; simpl; [reflexivity | rewrite IH; reflexivity].
Qed.

(** Induction on a string two characters at a time. *)
Lemma string_pair_ind (P : string -> Prop) :
  P "" -> (forall x, P (String x "")) ->
  (forall x y s, P s -> P (String y s) -> P (String x (String y s))) ->
  forall s, P s.
Proof.
  intros H0 H1 H2.
  assert (H : forall s, P s /\ forall x, P (String x s)).
  { induction s as [|y s [IH1 IH2]]; [split; [exact H0 | exact H1]|].
    split; [apply IH2|]. intros x. apply H2; [exact IH1 | apply IH2]. }
  intros s. apply H.
Qed.

Lemma replace_pair_step a b new x y s :
  replace_pair a b new (String x (String y s)) =
    if Ascii.eqb x a && Ascii.eqb y b then new +:+ replace_pair a b new s
    else String x (replace_pair a b new (String y s)).
Proof. reflexivity. Qed.

Lemma replace_pair_count c a b new s :
  Py.count c new = 0 -> Py.count c s = 0 ->
  Py.count c (replace_pair a b new s) = 0.
Proof.
  intros Hnew. induction s as [| |x y s IH1 IH2] using string_pair_ind;
    [reflexivity | auto |].
  intros Hs. rewrite replace_pair_step.
  change (Py.count c (String x (String y s)))
    with ((if Ascii.eqb x c then 1 else 0) + Py.count c (String y s)) in Hs.
  destruct (Ascii.eqb x a && Ascii.eqb y b).
  - rewrite count_app, Hnew. apply IH1.
    simpl in Hs. lia.
  - change ((if Ascii.eqb x c then 1 else 0) +
            Py.count c (replace_pair a b new (String y s)) = 0).
    rewrite IH2 by lia. lia.
Qed.

Lemma replace_pair_length a b new s :
  String.length new <= 2 ->
  String.length (replace_pair a b new s) <= String.length s.
Proof.
  intros Hnew. induction s as [| |x y s IH1 IH2] using string_pair_ind;
    [simpl; lia | simpl; lia |].
  rewrite replace_pair_step. destruct (Ascii.eqb x a && Ascii.eqb y b).
  - rewrite str_length_app. simpl. lia.
  - change (S (String.length (replace_pair a b new (String y s))) <=
            S (String.length (String y s))).
    lia.
Qed.

(** X18. What [css_minify] returns is one line: it holds no line break,
    and it is no longer than what it was given. *)
Theorem css_minify_one_line (s : string) :
  Py.count newline (css_minify s) = 0 /\
  String.length (css_minify s) <= String.length s.
Proof.
  unfold css_minify. split.
  - apply replace_pair_count; [reflexivity|].
    apply replace_char_count. discriminate.
  - etransitivity; [apply replace_pair_length; simpl; lia|].
    rewrite replace_char_length. lia.
Qed.

End CSSFacts.

(** ** DiffHtmlFormatter *)
Section DiffFacts.
Import Diff.

Lemma sorted_perm names : sorted names ≡ₚ names.
Proof.
  unfold sorted. rewrite sort_by_perm.
  induction names as [|k names IH]; simpl; [reflexivity | rewrite IH; reflexivity].
Qed.

(** The columns of a table are the keys of its first record. *)
Lemma cols_keys (r0 : record) k : k ∈ sorted (keys r0) <-> is_Some (r0 !! k).
Proof.
  rewrite sorted_perm. unfold keys. rewrite list_elem_of_fmap. split.
  - intros [[k' v] [-> Hin]]. apply elem_of_map_to_list in Hin. eauto.
  - intros [v Hv]. exists (k, v). split; [reflexivity|].
    apply elem_of_map_to_list. exact Hv.
Qed.

Lemma cols_length (r0 : record) : length (sorted (keys r0)) = size r0.
Proof.
  rewrite sorted_perm. unfold keys. rewrite length_fmap.
  apply length_map_to_list.
Qed.

Lemma td_cells_cases cols (r : record) :
  (Forall (fun c => is_Some (r !! c)) cols ->
   exists tds, td_cells cols r = Returns tds /\ length tds = length cols) /\
  (~ Forall (fun c => is_Some (r !! c)) cols ->
   exists k, td_cells cols r = Raises (KeyError k) /\ k ∈ cols /\ r !! k = None).
Proof.
  induction cols as [|c cols [IH1 IH2]]; simpl.
  - split; [eauto|]. intros H. exfalso. apply H. constructor.
  - destruct (r !! c) as [v|] eqn:Hc.
    + split.
      * intros H. inversion H; subst.
        destruct (IH1 ltac:(assumption)) as (tds & -> & Hlen).
        eexists. split; [reflexivity | simpl; lia].
      * intros H. destruct IH2 as (k & -> & Hk & Hnone).
        { intros Hall. apply H. constructor; [eauto | exact Hall]. }
        exists k. split; [reflexivity|]. split; [right; exact Hk | exact Hnone].
    + split.
      * intros H. inversion H as [|? ? [x Hs] _]; subst.
        rewrite Hc in Hs. discriminate.
      * intros _. exists c. split; [reflexivity|]. split; [left | exact Hc].
Qed.

Lemma has_keys_cols (r0 r : record) :
  has_keys_of r0 r <-> Forall (fun c => is_Some (r !! c)) (sorted (keys r0)).
Proof.
  rewrite Forall_forall. unfold has_keys_of. split.
  - intros H c Hc. apply H. apply cols_keys. exact Hc.
  - intros H k Hk. apply H. apply cols_keys. exact Hk.
Qed.

Lemma has_keys_dec (r0 r : record) : has_keys_of r0 r \/ ~ has_keys_of r0 r.
Proof.
  destruct (decide (Forall (fun c => is_Some (r !! c)) (sorted (keys r0))))
    as [H|H]; [left | right]; rewrite has_keys_cols; exact H.
Qed.

Lemma all_keys_dec (r0 : record) rows :
  Forall (has_keys_of r0) rows \/ ~ Forall (has_keys_of r0) rows.
Proof.
  induction rows as [|r rows IH]; [left; constructor|].
  destruct (has_keys_dec r0 r) as [Hr|Hr].
  - destruct IH as [IH|IH]; [left; constructor; assumption|].
    right. intros H. inversion H; subst. contradiction.
  - right. intros H. inversion H; subst. contradiction.
Qed.

Lemma tr_lines_cases (r0 : record) rows :
  let cols := sorted (keys r0) in
  (Forall (has_keys_of r0) rows ->
   exists ls, tr_lines cols rows = Returns ls /\
              length ls = (size r0 + 2) * length rows) /\
  (~ Forall (has_keys_of r0) rows ->
   exists k, tr_lines cols rows = Raises (KeyError k) /\ is_Some (r0 !! k)).
Proof.
  intros cols. induction rows as [|r rows [IH1 IH2]]; simpl.
  - split; [intros _; eexists; split; [reflexivity | simpl; lia]|].
    intros H. exfalso. apply H. constructor.
  - destruct (td_cells_cases cols r) as [Hok Hbad].
    destruct (has_keys_dec r0 r) as [Hr|Hr].
    + destruct (Hok (proj1 (has_keys_cols r0 r) Hr)) as (tds & -> & Hlen).
      split.
      * intros H. inversion H; subst.
        destruct (IH1 ltac:(assumption)) as (ls & -> & Hls).
        eexists. split; [reflexivity|].
        simpl. rewrite !length_app, Hlen. simpl. rewrite Hls.
        unfold cols. rewrite cols_length. lia.
      * intros H. destruct IH2 as (k & -> & Hk).
        { intros Hall. apply H. constructor; assumption. }
        exists k. split; [reflexivity | exact Hk].
    + destruct Hbad as (k & -> & Hk & _).
      { intros Hall. apply Hr. apply has_keys_cols. exact Hall. }
      split.
      * intros H. inversion H; subst. contradiction.
      * intros _. exists k. split; [reflexivity|]. apply cols_keys. exact Hk.
Qed.

(** X19. [_table] needs, in every record, the keys of the first one.
    When it returns, every record has them, and the lines are one for the
    table, a row of headings and a row for every record, each of as many
    cells as the first record has keys.  When a record lacks one of them,
    [_table] raises: KeyError for such a key when it comes to it. *)
Theorem diff_table_needs_first_keys (r0 : record) (rows : list record) :
  (forall lines, _table (r0 :: rows) = Returns lines ->
     Forall (has_keys_of r0) rows /\
     length lines = 2 + (size r0 + 2) * (2 + length rows)) /\
  (~ Forall (has_keys_of r0) rows ->
     exists e, _table (r0 :: rows) = Raises e).
Proof.
  assert (H0 : has_keys_of r0 r0) by (intros k Hk; exact Hk).
  destruct (tr_lines_cases r0 (r0 :: rows)) as [Hok Hbad].
  unfold _table.
  destruct (all_keys_dec r0 rows) as [Hall|Hall].
  - destruct (Hok (Forall_cons_2 _ _ _ H0 Hall)) as (ls & -> & Hls).
    split; [|intros H; contradiction].
    intros lines [= <-]. split; [exact Hall|]. cbn [length].
    rewrite !length_app, length_map, Hls, cols_length.
    simpl. lia.
  - destruct Hbad as (k & -> & Hk).
    { intros H. inversion H; subst. contradiction. }
    split; [intros ? ?; discriminate | eauto].
Qed.

Lemma td_cells_restrict (r0 r : record) cols :
  Forall (fun c => is_Some (r0 !! c)) cols ->
  td_cells cols (restrict_to r0 r) = td_cells cols r.
Proof.
  induction 1 as [|c cols Hc _ IH]; simpl; [reflexivity|].
  rewrite IH.
  assert (Hl : restrict_to r0 r !! c = r !! c).
  { unfold restrict_to. rewrite map_lookup_filter.
    destruct (r !! c) as [v|]; simpl; [|reflexivity].
    rewrite option_guard_True; [reflexivity | exact Hc]. }
  rewrite Hl. reflexivity.
Qed.

(** X20. A key that the first record lacks is never shown: [_table]
    gives for the records what it gives for them without such keys. *)
Theorem diff_table_first_record_keys (r0 : record) (rows : list record) :
  _table (r0 :: map (restrict_to r0) rows) = _table (r0 :: rows).
Proof.
  unfold _table. cbn [tr_lines].
  assert (Hcols : Forall (fun c => is_Some (r0 !! c)) (sorted (keys r0))).
  { apply Forall_forall. intros c Hc. apply cols_keys. exact Hc. }
  assert (H : tr_lines (sorted (keys r0)) (map (restrict_to r0) rows) =
              tr_lines (sorted (keys r0)) rows).
  { induction rows as [|r rows IH]; simpl; [reflexivity|].
    rewrite (td_cells_restrict r0 r _ Hcols), IH. reflexivity. }
  rewrite H. reflexivity.
Qed.

Lemma td_cells_raises cols (r : record) e :
  td_cells cols r = Raises e -> exists k, e = KeyError k.
Proof.
  induction cols as [|c cols IH]; simpl; [discriminate|].
  destruct (r !! c); [|intros [= <-]; eauto].
  destruct (td_cells cols r); [discriminate|].
  intros [= <-]. apply IH. reflexivity.
Qed.

Lemma tr_lines_raises cols (rows : list record) e :
  tr_lines cols rows = Raises e -> exists k, e = KeyError k.
Proof.
  induction rows as [|r rows IH]; simpl; [discriminate|].
  destruct (td_cells cols r) eqn:Htd.
  - destruct (tr_lines cols rows); [discriminate|].
    intros [= <-]. apply IH. reflexivity.
  - intros [= <-]. eapply td_cells_raises. exact Htd.
Qed.

(** X21. [_body] needs the three sections "additional", "missing" and
    "different" in the result and asks for them in that order: without
    one it raises KeyError for the first that is missing, unless a table
    before it raised.  It never takes the first row of an empty list, and
    it reads no other section of the result. *)
Theorem diff_body_sections (result : gmap string (list record)) :
  (forall section, section ∈ ["additional"; "missing"; "different"] ->
     result !! section = None ->
     exists e, _body result = Raises e) /\
  (result !! "additional" = None ->
     _body result = Raises (KeyError "additional")) /\
  _body result <> Raises NoFirstRow /\
  (forall (other : string) (rows : list record),
     other ∉ ["additional"; "missing"; "different"] ->
     _body (<[other := rows]> result) = _body result).
Proof.
  assert (Hblock : forall section, section_block result section <> Raises NoFirstRow).
  { intros section. unfold section_block. cbv zeta.
    destruct (result !! section) as [rows|]; [|intros H; discriminate H].
    destruct rows as [|r0 rows]; cbn [length Nat.eqb];
      [intros H; discriminate H|].
    unfold _table. cbv zeta.
    destruct (tr_lines _ _) eqn:Htr; intros H; [discriminate H|].
    injection H as ->. destruct (tr_lines_raises _ _ _ Htr). discriminate. }
  split; [|split; [|split]].
  - intros section Hin Hnone. unfold _body. cbn [section_blocks].
    assert (Hs : section_block result section = Raises (KeyError section))
      by (unfold section_block; rewrite Hnone; reflexivity).
    repeat (apply elem_of_cons in Hin as [->|Hin]);
      [..|inversion Hin];
      repeat first [ rewrite Hs | destruct (section_block result _) as [?|?] ];
      eauto.
  - intros Hnone. unfold _body. cbn [section_blocks].
    unfold section_block at 1. rewrite Hnone. reflexivity.
  - unfold _body. cbn [section_blocks].
    pose proof (Hblock "additional"). pose proof (Hblock "missing").
    pose proof (Hblock "different").
    destruct (section_block result "additional") as [?|?]; [|congruence].
    destruct (section_block result "missing") as [?|?]; [|congruence].
    destruct (section_block result "different") as [?|?]; congruence.
  - intros other rows Hother. unfold _body. cbn [section_blocks].
    assert (Hl : forall section,
              section ∈ ["additional"; "missing"; "different"] ->
              section_block (<[other := rows]> result) section =
              section_block result section).
    { intros section Hin. unfold section_block.
      rewrite lookup_insert_ne; [reflexivity|].
      intros ->. contradiction. }
    rewrite !Hl by (repeat first [left | right]). reflexivity.
Qed.

End DiffFacts.

(** ** HTMLFormatter: groups of rows *)
Section HTMLGroups.
Import HTML Grouping.







End HTMLGroups.
